(** * summer: request core, health registry, readiness cascade, admission

    A shallow embedding of [app.go] (package [summer]) and of the helpers
    its test file [utils_test.go] exercises.

    Conventions.
    - A Go [map] is a [gmap]; a [range] loop over it visits its entries in an
      order the language leaves open, so every loop body is folded over an
      explicit sequence, and the statements quantify over the sequences that
      are permutations of the map's entries.
    - [int] and [int64] are [Z]; the wrap of [atomic.AddInt64] is written out.
    - An [error] value is [option string]: [None] is [nil], [Some s] is an
      error whose [Error()] text is [s].
    - A [chan struct{}] is its capacity and the number of buffered tokens.
    - A call that may panic returns a [result]; [defer] is [with_defer]. *)

From Stdlib Require Import ZArith Lia Ascii String List.
From stdpp Require Import base gmap strings list fin_maps.

Local Open Scope Z_scope.
#[local] Set Warnings "-clear-no-such-hyp".

(** ** Values shared by all components *)

(** The one-byte string holding a line feed. *)
Definition LF : string := String "010"%char "".

(** [visit] is a sequence in which [range m] may yield the entries of [m]. *)
Definition ranges {V : Type} (m : gmap string V) (visit : list (string * V)) : Prop :=
  visit ≡ₚ map_to_list m.

(** The outcome of a call: it returns, or it panics with a value. *)
Inductive result (A : Type) : Type :=
  | Ok (a : A)
  | Panic (v : string).
Arguments Ok {A} a.
Arguments Panic {A} v.

(** [http.StatusOK], [http.StatusInternalServerError] *)
Definition StatusOK : Z := 200.
Definition StatusInternalServerError : Z := 500.

(** What a handler wrote to its [http.ResponseWriter]. *)
Record response : Type := { status : Z; body : string }.

(** Modelled from the spec: [respondText] ([utils.go] is not among the
    sources): it writes the status code and the text as the body, as
    [TestRespondText] checks. *)
Definition respondText (s : string) (code : Z) : response :=
  {| status := code; body := s |}.

(** The constants of the package that [app.go] uses; the file declaring them
    is not among the sources. *)
Class Consts : Type := {
  DebugPathPrefix : string;
  DebugPathAlive : string;
  DebugPathReady : string;
  DebugPathMetrics : string
}.

(** [http.ServeMux]: the registered pattern it selects for a path, and
    whether [Handle] accepts a new pattern next to the registered ones (it
    panics on a pattern that is invalid or registered already). *)
Class ServeMux : Type := {
  serveMux_match : gset string → string → option string;
  serveMux_accepts : gset string → string → bool
}.

(** The capability of the request-scoped context type ([c.Perform()]). *)
Class Context (T : Type) : Type := {
  Perform : T → result unit
}.

(** [struct options]: the fields [app.go] reads. *)
Record options : Type := { concurrency : Z; readinessCascade : Z }.

(** [type Option func(opts *options)] *)
Definition Option : Type := options → options.

(** A buffered [chan struct{}]. *)
Record chan : Type := { chan_cap : Z; chan_len : Z }.

(** [make(chan struct{}, n)] *)
Definition make_chan (n : Z) : chan := {| chan_cap := n; chan_len := 0 |}.

(** [c <- struct{}{}]; [None] when the send has to wait. *)
Definition chan_send (c : chan) : option chan :=
  if chan_len c <? chan_cap c
  then Some {| chan_cap := chan_cap c; chan_len := chan_len c + 1 |}
  else None.

(** [<-c]; [None] when the receive has to wait. *)
Definition chan_recv (c : chan) : option chan :=
  if 0 <? chan_len c
  then Some {| chan_cap := chan_cap c; chan_len := chan_len c - 1 |}
  else None.

(** The range of [int64] and the wrap of its arithmetic. *)
Definition wrap64 (z : Z) : Z := (z + 2 ^ 63) mod 2 ^ 64 - 2 ^ 63.

Section Model.

Context {Ctx : Type} {T : Type} `{!Context T} `{!Consts} `{!ServeMux}.

(** The parts of [*http.Request] the package reads. *)
Record Request : Type := {
  Method : string;
  URL_Path : string;
  URL_Query : gmap string (list string);
  Header : gmap string (list string);
  Body : string;
  Req_Context : Ctx
}.

(** [type CheckerFunc func(ctx context.Context) (err error)] *)
Definition CheckerFunc : Type := Ctx → option string.

(** [type HandlerFunc[T Context] func(ctx T)] *)
Definition HandlerFunc : Type := T → result unit.

(** [ContextFactory[T]]: builds the context of a request. *)
Definition ContextFactory : Type := Request → result T.

(** [struct app].  [mux] maps a pattern to the [fn] around which [HandleFunc]
    builds the registered closure; [h] and [debug] are the functions
    [h_ServeHTTP] and [debug_ServeHTTP] below; a nil [cc] is [None]. *)
Record app : Type := {
  contextFactory : ContextFactory;
  opts : options;
  checkers : gmap string CheckerFunc;
  mux : gmap string HandlerFunc;
  cc : option chan;
  readinessFailed : Z
}.

Definition set_checkers (a : app) (c : gmap string CheckerFunc) : app :=
  {| contextFactory := contextFactory a; opts := opts a; checkers := c;
     mux := mux a; cc := cc a; readinessFailed := readinessFailed a |}.

Definition set_mux (a : app) (m : gmap string HandlerFunc) : app :=
  {| contextFactory := contextFactory a; opts := opts a; checkers := checkers a;
     mux := m; cc := cc a; readinessFailed := readinessFailed a |}.

Definition set_cc (a : app) (c : option chan) : app :=
  {| contextFactory := contextFactory a; opts := opts a; checkers := checkers a;
     mux := mux a; cc := c; readinessFailed := readinessFailed a |}.

Definition set_readinessFailed (a : app) (v : Z) : app :=
  {| contextFactory := contextFactory a; opts := opts a; checkers := checkers a;
     mux := mux a; cc := cc a; readinessFailed := v |}.

(** *** Health registry *)

(** [func (a *app[T]) CheckFunc(name string, fn CheckerFunc)] *)
Definition CheckFunc (name : string) (fn : CheckerFunc) (a : app) : app :=
  set_checkers a (<[name := fn]> (checkers a)).

(** One iteration of the loop of [executeCheckers]; the accumulator is the
    [strings.Builder] and the named result [failed]. *)
Definition executeCheckers_body (ctx : Ctx) (acc : string * bool)
    (kfn : string * CheckerFunc) : string * bool :=
  let '(sb, failed) := acc in
  let sb := if (0 <? String.length sb)%nat then sb +:+ LF else sb in
  let sb := sb +:+ kfn.1 in
  let sb := sb +:+ ": " in
  match kfn.2 ctx with
  | None => (sb +:+ "OK", failed)
  | Some e => (sb +:+ e, true)
  end.

(** [executeCheckers], on the sequence [visit] in which [range a.checkers]
    yields the registry. *)
Definition executeCheckers (visit : list (string * CheckerFunc)) (ctx : Ctx)
    : string * bool :=
  let '(sb, failed) := fold_left (executeCheckers_body ctx) visit ("", false) in
  let r := sb in
  let r := if String.eqb r "" then "OK" else r in
  (r, failed).

(** The line of the report for one checker. *)
Definition report_line (ctx : Ctx) (kfn : string * CheckerFunc) : string :=
  kfn.1 +:+ ": " +:+ match kfn.2 ctx with None => "OK" | Some e => e end.

(** Does the checker return a non-nil error? *)
Definition checker_fails (ctx : Ctx) (kfn : string * CheckerFunc) : bool :=
  match kfn.2 ctx with None => false | Some _ => true end.

(** *** The diagnostics handlers of [initialize] *)

(** Handlers run on the application state. *)
Definition St (A : Type) : Type := app → app * A.

Definition st_ret {A : Type} (x : A) : St A := λ a, (a, x).

Definition st_bind {A B : Type} (m : St A) (k : A → St B) : St B :=
  λ a, let '(a', x) := m a in k x a'.

(** [atomic.LoadInt64(&a.readinessFailed)] *)
Definition atomic_LoadInt64 : St Z := λ a, (a, readinessFailed a).

(** [atomic.AddInt64(&a.readinessFailed, delta)] *)
Definition atomic_AddInt64 (delta : Z) : St Z :=
  λ a, let v := wrap64 (readinessFailed a + delta) in (set_readinessFailed a v, v).

(** [atomic.StoreInt64(&a.readinessFailed, v)] *)
Definition atomic_StoreInt64 (v : Z) : St unit :=
  λ a, (set_readinessFailed a v, tt).

(** The handler of [DebugPathAlive]; [&&] evaluates the load only when the
    threshold is positive. *)
Definition handleAlive : St response :=
  st_bind
    (λ a, if 0 <? readinessCascade (opts a)
          then st_bind atomic_LoadInt64
                 (λ v, st_ret (readinessCascade (opts a) <? v)) a
          else st_ret false a)
    (λ cascaded,
       if cascaded : bool
       then st_ret (respondText "CASCADED" StatusInternalServerError)
       else st_ret (respondText "OK" StatusOK)).

(** The handler of [DebugPathReady], with the request's context and the
    sequence [range a.checkers] yields. *)
Definition handleReady (ctx : Ctx) (visit : list (string * CheckerFunc))
    : St response :=
  λ a,
    let '(r, failed) := executeCheckers visit ctx in
    if failed
    then st_bind (atomic_AddInt64 1)
           (λ _, st_ret (respondText r StatusInternalServerError)) a
    else st_bind (atomic_StoreInt64 0)
           (λ _, st_ret (respondText r StatusOK)) a.

(** *** Calls, panics and [defer] *)

(** The steps a request performs that other requests can observe or that
    call user code. *)
Inductive action : Type :=
  | ARecv                                  (* <-a.cc *)
  | ASend                                  (* a.cc <- struct{}{} *)
  | AAlive                                 (* the liveness handler *)
  | AReady (ctx : Ctx)                     (* the readiness handler *)
  | AMetrics                               (* promhttp.Handler() *)
  | APprof (pattern : string)              (* the pprof handlers *)
  | ADebugNotFound                         (* no diagnostics pattern matches *)
  | AFactory (req : Request)               (* a.contextFactory(rw, req) *)
  | AHandler (pattern : string) (c : T)    (* fn(c) *)
  | APerform (c : T)                       (* c.Perform() *)
  | ANotFound.                             (* no user pattern matches *)

(** A piece of Go code: the steps it performs, in order, and how it ends. *)
Definition Go (A : Type) : Type := list action * result A.

Definition go_ret {A : Type} (x : A) : Go A := ([], Ok x).

Definition go_bind {A B : Type} (m : Go A) (k : A → Go B) : Go B :=
  match m with
  | (l1, Ok x) => let '(l2, r) := k x in (l1 ++ l2, r)
  | (l1, Panic v) => (l1, Panic v)
  end.

(** One step that ends as [r]. *)
Definition go_call {A : Type} (act : action) (r : result A) : Go A := ([act], r).

(** [defer d] followed by [body]: [d] runs when [body] returns and when it
    panics; a panic of [d] replaces the one under way. *)
Definition with_defer {A : Type} (d : Go unit) (body : Go A) : Go A :=
  let '(l1, r1) := body in
  let '(l2, r2) := d in
  (l1 ++ l2, match r2 with Panic v => Panic v | Ok _ => r1 end).

(** *** Dispatch *)

(** [func (a *app[T]) HandleFunc(pattern string, fn HandlerFunc[T])]; the
    panic is the one of [a.mux.Handle]. *)
Definition HandleFunc (pattern : string) (fn : HandlerFunc) (a : app) : result app :=
  if serveMux_accepts (dom (mux a)) pattern
  then Ok (set_mux a (<[pattern := fn]> (mux a)))
  else Panic "http: invalid pattern or multiple registrations".

(** The closure [HandleFunc] registers for [pattern] and [fn]. *)
Definition HandleFunc_closure (cf : ContextFactory) (pattern : string)
    (fn : HandlerFunc) (req : Request) : Go unit :=
  go_bind (go_call (AFactory req) (cf req))
    (λ c, with_defer (go_call (APerform c) (Perform c))
                     (go_call (AHandler pattern c) (fn c))).

(** [a.h.ServeHTTP]: the user mux (the tracing wrappers around it pass the
    request through). *)
Definition h_ServeHTTP (a : app) (req : Request) : Go unit :=
  match serveMux_match (dom (mux a)) (URL_Path req) with
  | Some pattern =>
      match mux a !! pattern with
      | Some fn => HandleFunc_closure (contextFactory a) pattern fn req
      | None => go_call ANotFound (Ok tt)
      end
  | None => go_call ANotFound (Ok tt)
  end.

(** The patterns [initialize] registers for pprof. *)
Definition pprof_patterns : list string :=
  ["/debug/pprof/"; "/debug/pprof/cmdline"; "/debug/pprof/profile";
   "/debug/pprof/symbol"; "/debug/pprof/trace"].

(** The patterns of the mux [m] of [initialize]. *)
Definition debug_patterns : gset string :=
  list_to_set ([DebugPathAlive; DebugPathReady; DebugPathMetrics] ++ pprof_patterns).

(** [a.debug.ServeHTTP]: the mux [m] of [initialize]. *)
Definition debug_ServeHTTP (req : Request) : Go unit :=
  match serveMux_match debug_patterns (URL_Path req) with
  | Some pattern =>
      if String.eqb pattern DebugPathAlive then go_call AAlive (Ok tt)
      else if String.eqb pattern DebugPathReady
      then go_call (AReady (Req_Context req)) (Ok tt)
      else if String.eqb pattern DebugPathMetrics then go_call AMetrics (Ok tt)
      else if bool_decide (pattern ∈ pprof_patterns)
      then go_call (APprof pattern) (Ok tt)
      else go_call ADebugNotFound (Ok tt)
  | None => go_call ADebugNotFound (Ok tt)
  end.

(** [func (a *app[T]) ServeHTTP(rw http.ResponseWriter, req *http.Request)] *)
Definition ServeHTTP (a : app) (req : Request) : Go unit :=
  if String.prefix DebugPathPrefix (URL_Path req)
  then debug_ServeHTTP req
  else
    match cc a with
    | Some _ =>
        go_bind (go_call ARecv (Ok tt))
          (λ _, with_defer (go_call ASend (Ok tt)) (h_ServeHTTP a req))
    | None => h_ServeHTTP a req
    end.

(** *** Construction *)

(** The loop of [initialize] that fills the pool: [n] sends. *)
Fixpoint fill (n : nat) (c : chan) : option chan :=
  match n with
  | O => Some c
  | S n' => match chan_send c with Some c' => fill n' c' | None => None end
  end.

(** [func (a *app[T]) initialize()]; [None] if a send of the fill loop had
    to wait for ever.  The diagnostics patterns are taken to be valid and
    distinct, so that their registration on the mux [m] does not panic. *)
Definition initialize (a : app) : option app :=
  let a := set_checkers a ∅ in
  let a := set_mux a ∅ in
  if 0 <? concurrency (opts a)
  then match fill (Z.to_nat (concurrency (opts a))) (make_chan (concurrency (opts a))) with
       | Some c => Some (set_cc a (Some c))
       | None => None
       end
  else Some a.

(** The options [New] starts from. *)
Definition default_options : options :=
  {| concurrency := 128; readinessCascade := 5 |}.

(** [opt(&a.opts)] for every option, in order. *)
Definition apply_options (os : list Option) (o : options) : options :=
  fold_left (λ o opt, opt o) os o.

(** [func New[T Context](cf ContextFactory[T], opts ...Option) App[T]] *)
Definition New (cf : ContextFactory) (os : list Option) : option app :=
  let a := {| contextFactory := cf; opts := default_options; checkers := ∅;
              mux := ∅; cc := None; readinessFailed := 0 |} in
  let a := {| contextFactory := contextFactory a;
              opts := apply_options os (opts a);
              checkers := checkers a; mux := mux a; cc := cc a;
              readinessFailed := readinessFailed a |} in
  initialize a.

(** A registration made on the [App] interface at setup time. *)
Inductive registration : Type :=
  | RegCheck (name : string) (fn : CheckerFunc)
  | RegHandle (pattern : string) (fn : HandlerFunc).

Definition register (a : app) (r : registration) : result app :=
  match r with
  | RegCheck name fn => Ok (CheckFunc name fn a)
  | RegHandle pattern fn => HandleFunc pattern fn a
  end.

(** The registrations of the setup phase, in order, up to the first that
    panics. *)
Fixpoint setup (a : app) (regs : list registration) : result app :=
  match regs with
  | [] => Ok a
  | r :: regs' =>
      match register a r with
      | Ok a' => setup a' regs'
      | Panic v => Panic v
      end
  end.

(** *** Probes of the diagnostics surface, one after the other *)

Inductive probe : Type :=
  | ProbeAlive
  | ProbeReady (ctx : Ctx) (visit : list (string * CheckerFunc)).

Definition probe_step (a : app) (p : probe) : app * response :=
  match p with
  | ProbeAlive => handleAlive a
  | ProbeReady ctx visit => handleReady ctx visit a
  end.

(** The state after a sequence of probes. *)
Definition probes (a : app) (ps : list probe) : app :=
  fold_left (λ a p, (probe_step a p).1) ps a.

(** *** Requests running concurrently *)

(** A request in flight: the steps it has still to perform, the permits it
    holds, and the diagnostics response it has written. *)
Record thread : Type := {
  todo : list action;
  held : Z;
  written : option response
}.

(** The server: the application and the requests in flight. *)
Record server : Type := { shared : app; threads : list thread }.

(** One step on the application state; [None] when the step has to wait.
    [visit] is the order in which a [range a.checkers] of this step yields. *)
Definition exec (visit : list (string * CheckerFunc)) (act : action) (a : app)
    : option (app * option response) :=
  match act with
  | ARecv =>
      match cc a with
      | Some c => match chan_recv c with
                  | Some c' => Some (set_cc a (Some c'), None)
                  | None => None
                  end
      | None => None
      end
  | ASend =>
      match cc a with
      | Some c => match chan_send c with
                  | Some c' => Some (set_cc a (Some c'), None)
                  | None => None
                  end
      | None => None
      end
  | AAlive => let '(a', r) := handleAlive a in Some (a', Some r)
  | AReady ctx => let '(a', r) := handleReady ctx visit a in Some (a', Some r)
  | _ => Some (a, None)
  end.

(** The permits a step takes ([+1]) or gives back ([-1]). *)
Definition permit_delta (act : action) : Z :=
  match act with ARecv => 1 | ASend => -1 | _ => 0 end.

(** What the scheduler does next: accept a request, or let request [tid]
    perform its next step. *)
Inductive sched : Type :=
  | Accept (req : Request)
  | Run (tid : nat) (visit : list (string * CheckerFunc)).

(** A scheduler move; a request that has to wait, or has finished, stays. *)
Definition server_step (s : server) (mv : sched) : server :=
  match mv with
  | Accept req =>
      {| shared := shared s;
         threads := threads s ++
           [{| todo := (ServeHTTP (shared s) req).1; held := 0; written := None |}] |}
  | Run tid visit =>
      match threads s !! tid with
      | Some {| todo := act :: rest; held := n; written := w |} =>
          match exec visit act (shared s) with
          | Some (a', r) =>
              {| shared := a';
                 threads := <[tid := {| todo := rest; held := n + permit_delta act;
                                        written := match r with Some _ => r | None => w end |}]>
                              (threads s) |}
          | None => s
          end
      | _ => s
      end
  end.

Definition server_run (s : server) (mvs : list sched) : server :=
  fold_left server_step mvs s.

(** The server as [New] and the setup-time registrations leave it. *)
Definition boot (a : app) : server := {| shared := a; threads := [] |}.

(** Is the step inside [a.h.ServeHTTP], the user-facing handler? *)
Definition is_inner (act : action) : bool :=
  match act with
  | AFactory _ | AHandler _ _ | APerform _ | ANotFound => true
  | _ => false
  end.

(** Is the step the finalize step of a context? *)
Definition is_perform (act : action) : bool :=
  match act with APerform _ => true | _ => false end.

(** Is the step one of the diagnostics handlers? *)
Definition is_debug (act : action) : bool :=
  match act with
  | AAlive | AReady _ | AMetrics | APprof _ | ADebugNotFound => true
  | _ => false
  end.

(** Is the request inside the user-facing handler? *)
Definition active (t : thread) : bool :=
  match todo t with
  | act :: _ => is_inner act
  | [] => false
  end.

(** The number of requests inside the user-facing handler. *)
Definition active_count (s : server) : Z :=
  Z.of_nat (length (filter (λ t, active t = true) (threads s))).

(** The permits held by the requests in flight. *)
Definition held_total (s : server) : Z :=
  foldr (λ t n, held t + n) 0 (threads s).

(** The permits waiting in the pool. *)
Definition available (s : server) : Z :=
  match cc (shared s) with Some c => chan_len c | None => 0 end.

(** The shapes of a request in flight when the pool exists: finished, on
    the diagnostics side, waiting for a permit, or holding one. *)
Definition gated_shape (t : thread) : Prop :=
  (held t = 0 ∧
   (todo t = [] ∨
    (∃ act, todo t = [act] ∧ is_debug act = true) ∨
    (∃ mid, Forall (λ act, is_inner act = true) mid ∧
            todo t = ARecv :: mid ++ [ASend]))) ∨
  (held t = 1 ∧
   ∃ mid, Forall (λ act, is_inner act = true) mid ∧ todo t = mid ++ [ASend]).

(** The invariant of a server whose pool has capacity [C]. *)
Definition pool_invariant (C : Z) (s : server) : Prop :=
  (∃ c, cc (shared s) = Some c ∧ chan_cap c = C ∧ 0 ≤ chan_len c) ∧
  Forall gated_shape (threads s) ∧
  held_total s + available s = C.

End Model.

Arguments Request : clear implicits.
Arguments app : clear implicits.
Arguments action : clear implicits.
Arguments thread : clear implicits.
Arguments server : clear implicits.
Arguments sched : clear implicits.
Arguments registration : clear implicits.
Arguments probe : clear implicits.
Arguments CheckerFunc : clear implicits.
Arguments HandlerFunc : clear implicits.
Arguments ContextFactory : clear implicits.

(** ** Flattening of multi-valued fields *)

(** Modelled from the spec: [flattenSlice] ([utils.go] is not among the
    sources; [TestFlattenSlice] calls it at [[]string] and [[]int]).  The spec:
    "flatten returns the single string if the sequence has exactly one element,
    else returns the full ordered sequence".  The result has Go type [any]: a
    bare element ([inl]) or the slice itself ([inr]). *)
Definition flattenSlice {E : Type} (s : list E) : E + list E :=
  match s with
  | [x] => inl x
  | _ => inr s
  end.

(** ** Request normalizer *)

#[local] Set Warnings "-register-all".

(** Modelled from the spec: the values of the flattened map, sections 3 and
    4.1 ([utils.go] is not among the sources).  A value of Go type [any]: a
    string, a [[]string], or what the JSON decoder produces (a number is kept
    as its lexeme). *)
Inductive any : Type :=
  | AString (s : string)
  | AStrings (l : list string)
  | ANumber (lexeme : string)
  | ABool (b : bool)
  | ANull
  | AArray (l : list any)
  | AObject (l : list (string * any)).

(** Modelled from the spec: the errors of normalization, section 7; the spec
    names [UnsupportedContentType] and is silent on a body that does not
    decode, which is reported as a [DecodeError]. *)
Inductive Error : Type :=
  | UnsupportedContentType
  | DecodeError (text : string).

(** The decoders of the standard library the normalizer relies on: a JSON
    object as its top-level fields, a form body as its keys and values, both
    in the order in which they are stored; [inl] is a decoding error. *)
Class Decoders : Type := {
  json_Unmarshal : string → string + list (string * any);
  url_ParseQuery : string → string + list (string * list string)
}.

(** Modelled from the spec: the flattened value of a field as an [any]. *)
Definition of_flat (v : string + list string) : any :=
  match v with
  | inl s => AString s
  | inr l => AStrings l
  end.

(** [strings.ToLower] on one ASCII character. *)
Definition lower_ascii (c : ascii) : ascii :=
  let n := nat_of_ascii c in
  if ((65 <=? n) && (n <=? 90))%nat then ascii_of_nat (n + 32) else c.

(** Modelled from the spec: a character of a header name, "lower-cased", a
    dash "turned into an underscore". *)
Definition header_key_char (c : ascii) : ascii :=
  if Ascii.eqb c "-"%char then "_"%char else lower_ascii c.

Fixpoint string_map (f : ascii → ascii) (s : string) : string :=
  match s with
  | EmptyString => EmptyString
  | String c s' => String (f c) (string_map f s')
  end.

(** Modelled from the spec: the key of a header,
    [header_<lowercased-key-with-dashes-as-underscores>]. *)
Definition header_key (k : string) : string :=
  "header_" +:+ string_map header_key_char k.

(** Modelled from the spec: the key of a query parameter, [query_<key>]. *)
Definition query_key (k : string) : string := "query_" +:+ k.

(** [req.Header.Get(k)] for a key in canonical form. *)
Definition header_get (h : gmap string (list string)) (k : string) : string :=
  match h !! k with
  | Some (v :: _) => v
  | _ => ""
  end.

Section Normalizer.

Context {Ctx : Type} `{!Decoders}.

(** Modelled from the spec: step 1 of section 4.1 for one query parameter.
    The spec names the key [query_<key>]; every expected map of
    [TestFlattenRequest] ([utils_test.go], lines 48, 56, 64 and 72) also
    holds the parameter under its bare key, so both are written. *)
Definition flatten_query_entry (m : gmap string any) (kvs : string * list string)
    : gmap string any :=
  let v := of_flat (flattenSlice kvs.2) in
  <[query_key kvs.1 := v]> (<[kvs.1 := v]> m).

(** Modelled from the spec: step 2 of section 4.1 for one header. *)
Definition flatten_header_entry (m : gmap string any) (kvs : string * list string)
    : gmap string any :=
  <[header_key kvs.1 := of_flat (flattenSlice kvs.2)]> m.

(** Modelled from the spec: step 3 for one field of a form body. *)
Definition flatten_form_entry (m : gmap string any) (kvs : string * list string)
    : gmap string any :=
  <[kvs.1 := of_flat (flattenSlice kvs.2)]> m.

(** Modelled from the spec: step 3 for one top-level field of a JSON body. *)
Definition flatten_json_entry (m : gmap string any) (kv : string * any)
    : gmap string any :=
  <[kv.1 := kv.2]> m.

(** Modelled from the spec: a write [m[k] = v]. *)
Definition write (m : gmap string any) (kv : string * any) : gmap string any :=
  <[kv.1 := kv.2]> m.

(** Modelled from the spec: the writes of step 1, in the order in which they
    are made. *)
Definition query_writes (qs : list (string * list string)) : list (string * any) :=
  qs ≫= λ kvs, [(kvs.1, of_flat (flattenSlice kvs.2));
                (query_key kvs.1, of_flat (flattenSlice kvs.2))].

(** Modelled from the spec: the writes of step 2, in the order in which they
    are made. *)
Definition header_writes (hs : list (string * list string)) : list (string * any) :=
  (λ kvs, (header_key kvs.1, of_flat (flattenSlice kvs.2))) <$> hs.

(** Modelled from the spec: steps 1 and 2 of section 4.1 on the sequences in
    which the query parameters and the headers are visited. *)
Definition flatten_query_header (qs hs : list (string * list string))
    (m : gmap string any) : gmap string any :=
  fold_left flatten_header_entry hs (fold_left flatten_query_entry qs m).

(** Modelled from the spec: [flattenRequest] ([utils.go] is not among the
    sources), section 4.1: query parameters, then headers, then the body by
    the prefix of the [Content-Type] header; an empty body adds nothing and
    does not fail.  The map is the one the caller passed, as left by the
    call; the sequences [qs] and [hs] are the orders of the two [range]
    loops. *)
Definition flattenRequest_in (qs hs : list (string * list string))
    (m : gmap string any) (req : Request Ctx) : gmap string any * option Error :=
  let m := flatten_query_header qs hs m in
  if String.eqb (Body req) "" then (m, None)
  else
    let ct := header_get (Header req) "Content-Type" in
    if String.prefix "application/json" ct then
      match json_Unmarshal (Body req) with
      | inr fields => (fold_left flatten_json_entry fields m, None)
      | inl e => (m, Some (DecodeError e))
      end
    else if String.prefix "application/x-www-form-urlencoded" ct then
      match url_ParseQuery (Body req) with
      | inr fields => (fold_left flatten_form_entry fields m, None)
      | inl e => (m, Some (DecodeError e))
      end
    else if String.prefix "text/" ct then
      (<["text" := AString (Body req)]> m, None)
    else (m, Some UnsupportedContentType).

(** Modelled from the spec: [flattenRequest(m, req)] leaves the map [res.1]
    and returns [res.2], for some order of its two [range] loops. *)
Definition flattenRequest (m : gmap string any) (req : Request Ctx)
    (res : gmap string any * option Error) : Prop :=
  ∃ qs hs, ranges (URL_Query req) qs ∧ ranges (Header req) hs ∧
           res = flattenRequest_in qs hs m req.

(** Modelled from the spec: the [Content-Type] of the request is none of the
    families section 4.1 recognizes. *)
Definition unrecognized_content_type (req : Request Ctx) : Prop :=
  let ct := header_get (Header req) "Content-Type" in
  String.prefix "application/json" ct = false ∧
  String.prefix "application/x-www-form-urlencoded" ct = false ∧
  String.prefix "text/" ct = false.

End Normalizer.

(** ** The requests of the test file and other concrete data *)

Module Fixtures.

(** The one-character string holding a double quote. *)
Definition DQ : string := String "034"%char "".

(** The JSON text of [TestFlattenRequest]: an object with the field [hello]
    holding the string [world]. *)
Definition json_hello : string :=
  "{" +:+ DQ +:+ "hello" +:+ DQ +:+ ":" +:+ DQ +:+ "world" +:+ DQ +:+ "}".

(** The decoders, on the two bodies of the test file. *)
#[local] Instance test_decoders : Decoders := {|
  json_Unmarshal s :=
    if String.eqb s json_hello then inr [("hello", AString "world")]
    else inl "unexpected body";
  url_ParseQuery s :=
    if String.eqb s "hello=world" then inr [("hello", ["world"])]
    else inl "unexpected body"
|}.

(** [httptest.NewRequest("GET", "https://example.com/get?aaa=bbb", nil)] *)
Definition req_get : Request unit :=
  {| Method := "GET"; URL_Path := "/get";
     URL_Query := {[ "aaa" := ["bbb"] ]}; Header := ∅; Body := "";
     Req_Context := tt |}.

(** The [POST] requests of [TestFlattenRequest] to [/post?aaa=bbb]. *)
Definition req_post (content_type body : string) : Request unit :=
  {| Method := "POST"; URL_Path := "/post";
     URL_Query := {[ "aaa" := ["bbb"] ]};
     Header := {[ "Content-Type" := [content_type] ]}; Body := body;
     Req_Context := tt |}.

(** The package constants, as the comment of [App.CheckFunc] suggests them. *)
#[local] Instance test_consts : Consts := {|
  DebugPathPrefix := "/debug/";
  DebugPathAlive := "/debug/alive";
  DebugPathReady := "/debug/ready";
  DebugPathMetrics := "/debug/metrics"
|}.

(** A mux that selects the pattern equal to the path, and accepts the
    patterns that are not empty and not yet registered. *)
#[local] Instance test_mux : ServeMux := {|
  serveMux_match pats path := if bool_decide (path ∈ pats) then Some path else None;
  serveMux_accepts pats pattern :=
    negb (String.eqb pattern "") && negb (bool_decide (pattern ∈ pats))
|}.

(** A context type: the path of its request; its [Perform] returns. *)
#[local] Instance test_context : Context string := {|
  Perform _ := Ok tt
|}.

Definition test_factory : ContextFactory unit string := λ req, Ok (URL_Path req).

(** A request for a path. *)
Definition req_path (p : string) : Request unit :=
  {| Method := "GET"; URL_Path := p; URL_Query := ∅; Header := ∅; Body := "";
     Req_Context := tt |}.

(** A checker that fails and one that passes. *)
Definition chk_down : CheckerFunc unit := λ _, Some "connection refused".
Definition chk_up : CheckerFunc unit := λ _, None.

(** The application [New] returns when it is given no option. *)
Definition test_app : app unit string :=
  {| contextFactory := test_factory; opts := default_options; checkers := ∅;
     mux := ∅; cc := Some {| chan_cap := 128; chan_len := 128 |};
     readinessFailed := 0 |}.

(** An option that sets the capacity of the pool. *)
Definition with_concurrency (n : Z) : Option :=
  λ o, {| concurrency := n; readinessCascade := readinessCascade o |}.

(** The applications [New] returns for a pool of one permit and for no pool. *)
Definition test_app_one : app unit string :=
  {| contextFactory := test_factory; opts := with_concurrency 1 default_options;
     checkers := ∅; mux := ∅; cc := Some {| chan_cap := 1; chan_len := 1 |};
     readinessFailed := 0 |}.

Definition test_app_unbounded : app unit string :=
  {| contextFactory := test_factory; opts := with_concurrency 0 default_options;
     checkers := ∅; mux := ∅; cc := None; readinessFailed := 0 |}.

(** A handler that panics and one that returns. *)
Definition fn_panics : HandlerFunc string := λ _, Panic "boom".
Definition fn_returns : HandlerFunc string := λ _, Ok tt.

(** A setup: one failing checker and one route. *)
Definition test_regs : list (registration unit string) :=
  [RegCheck "db" chk_down; RegHandle "/hello" fn_panics].

(** The applications after this setup. *)
Definition test_app_ready : app unit string :=
  {| contextFactory := test_factory; opts := default_options;
     checkers := {[ "db" := chk_down ]}; mux := {[ "/hello" := fn_panics ]};
     cc := Some {| chan_cap := 128; chan_len := 128 |}; readinessFailed := 0 |}.

Definition test_app_one_ready : app unit string :=
  {| contextFactory := test_factory; opts := with_concurrency 1 default_options;
     checkers := {[ "db" := chk_down ]}; mux := {[ "/hello" := fn_panics ]};
     cc := Some {| chan_cap := 1; chan_len := 1 |}; readinessFailed := 0 |}.

(** Six readiness probes that find the checker failing. *)
Definition six_failures : list (probe unit) :=
  replicate 6 (ProbeReady tt [("db", chk_down)]).

(** Two requests for the route compete for one permit; the first gets it
    and enters the handler, the second waits. *)
Definition test_schedule : list (sched unit) :=
  [Accept (req_path "/hello"); Accept (req_path "/hello");
   Run 0%nat []; Run 1%nat []; Run 0%nat []; Run 1%nat []].

End Fixtures.

(** ** Notions used to state further properties *)

Section Notions.

Context {Ctx : Type} {T : Type}.

(** Is the probe a readiness evaluation that finds a failing checker? *)
Definition probe_fails (p : probe Ctx) : bool :=
  match p with
  | ProbeAlive => false
  | ProbeReady ctx visit => (executeCheckers visit ctx).2
  end.

(** Is the probe a readiness evaluation that finds every checker passing? *)
Definition probe_passes (p : probe Ctx) : bool :=
  match p with
  | ProbeAlive => false
  | ProbeReady ctx visit => negb (executeCheckers visit ctx).2
  end.

(** The number of failed readiness evaluations among the probes. *)
Definition failures (ps : list (probe Ctx)) : Z :=
  Z.of_nat (length (List.filter probe_fails ps)).

(** Has the request performed all its steps? *)
Definition finished (t : thread Ctx T) : bool :=
  match todo t with
  | [] => true
  | _ :: _ => false
  end.

(** Can request [tid] perform its next step now? *)
Definition enabled (s : server Ctx T) (tid : nat) : bool :=
  match threads s !! tid with
  | Some t =>
      match todo t with
      | act :: _ =>
          match exec [] act (shared s) with
          | Some _ => true
          | None => false
          end
      | [] => false
      end
  | None => false
  end.

(** The moves that let the request accepted as number [tid] perform [n]
    steps, one after the other. *)
Definition run_alone (tid n : nat) (visit : list (string * CheckerFunc Ctx))
    : list (sched Ctx) :=
  replicate n (Run tid visit).

End Notions.

Module MoreFixtures.

(** A factory that panics. *)
Definition factory_panics : ContextFactory unit string := λ _, Panic "no context".

(** A context type whose [Perform] panics. *)
#[local] Instance context_panics : Context nat := {|
  Perform _ := Panic "flush failed"
|}.

(** The application with one permit whose factory panics, one route set. *)
Definition app_factory_panics : app unit string :=
  {| contextFactory := factory_panics;
     opts := Fixtures.with_concurrency 1 default_options;
     checkers := ∅; mux := {[ "/hello" := Fixtures.fn_panics ]};
     cc := Some {| chan_cap := 1; chan_len := 1 |}; readinessFailed := 0 |}.

(** A route registered under the diagnostics prefix. *)
Definition app_shadowed : app unit string :=
  {| contextFactory := Fixtures.test_factory; opts := default_options;
     checkers := ∅; mux := {[ "/debug/alive" := Fixtures.fn_returns ]};
     cc := Some {| chan_cap := 128; chan_len := 128 |}; readinessFailed := 0 |}.

(** Two registries that differ in the checker under the name [db]. *)
Definition app_db_down : app unit string :=
  CheckFunc "db" Fixtures.chk_down (CheckFunc "cache" Fixtures.chk_up Fixtures.test_app).

(** Probes: a failure, a liveness probe, two failures. *)
Definition three_failures : list (probe unit) :=
  [ProbeReady tt [("db", Fixtures.chk_down)]; ProbeAlive;
   ProbeReady tt [("db", Fixtures.chk_down)];
   ProbeReady tt [("db", Fixtures.chk_down)]].

(** An application whose counter has reached the maximum of [int64]. *)
Definition app_at_max : app unit string :=
  {| contextFactory := Fixtures.test_factory; opts := default_options;
     checkers := {[ "db" := Fixtures.chk_down ]}; mux := ∅;
     cc := Some {| chan_cap := 128; chan_len := 128 |};
     readinessFailed := 2 ^ 63 - 1 |}.

(** Both requests of [Fixtures.test_schedule] run to their end. *)
Definition schedule_to_end : list (sched unit) :=
  Fixtures.test_schedule ++ replicate 3 (Run 0%nat []) ++ replicate 5 (Run 1%nat []).

End MoreFixtures.

(** * Properties *)

(** ** Strings *)

Lemma str_app_nil_r (s : string) : s +:+ "" = s.
Proof.
  induction s as [|c s IH]; [done|].
  change (String c (s +:+ "") = String c s). by rewrite IH.
Qed.

Lemma str_app_assoc (s t u : string) : (s +:+ t) +:+ u = s +:+ (t +:+ u).
Proof.
  induction s as [|c s IH]; [done|].
  change (String c ((s +:+ t) +:+ u) = String c (s +:+ (t +:+ u))). by rewrite IH.
Qed.

Lemma str_app_length (s t : string) :
  String.length (s +:+ t) = (String.length s + String.length t)%nat.
Proof.
  induction s as [|c s IH]; [done|].
  change (S (String.length (s +:+ t)) = S (String.length s + String.length t)).
  by rewrite IH.
Qed.

Lemma str_length_pos (s : string) : s ≠ "" ↔ (0 < String.length s)%nat.
Proof. destruct s; simpl; split; (congruence || lia). Qed.

Lemma str_app_nonempty_r (s t : string) : t ≠ "" → s +:+ t ≠ "".
Proof. rewrite !str_length_pos, str_app_length. lia. Qed.

Lemma str_app_nonempty_l (s t : string) : s ≠ "" → s +:+ t ≠ "".
Proof. rewrite !str_length_pos, str_app_length. lia. Qed.

(** ** Health registry *)

Section HealthFacts.

Context {Ctx : Type}.
Implicit Types (ctx : Ctx) (visit : list (string * CheckerFunc Ctx)).

Lemma report_line_nonempty ctx kfn : report_line ctx kfn ≠ "".
Proof. unfold report_line. apply str_app_nonempty_r, str_app_nonempty_l. done. Qed.

(** After the first iteration the builder is not empty, so every later
    iteration writes the separator. *)
Lemma executeCheckers_body_nonempty ctx sb failed kfn :
  sb ≠ "" →
  executeCheckers_body ctx (sb, failed) kfn =
    (sb +:+ LF +:+ report_line ctx kfn, failed || checker_fails ctx kfn).
Proof.
  intros Hsb. unfold executeCheckers_body, report_line, checker_fails.
  apply str_length_pos in Hsb. apply Nat.ltb_lt in Hsb. rewrite Hsb.
  destruct (kfn.2 ctx); rewrite !str_app_assoc;
    [by rewrite orb_true_r | by rewrite orb_false_r].
Qed.

Lemma executeCheckers_body_empty ctx kfn :
  executeCheckers_body ctx ("", false) kfn =
    (report_line ctx kfn, checker_fails ctx kfn).
Proof.
  unfold executeCheckers_body, report_line, checker_fails. cbn [String.length Nat.ltb Nat.leb].
  change ("" +:+ kfn.1) with kfn.1.
  destruct (kfn.2 ctx); by rewrite !str_app_assoc.
Qed.

Lemma executeCheckers_loop ctx visit sb failed :
  sb ≠ "" →
  fold_left (executeCheckers_body ctx) visit (sb, failed) =
    (fold_left (λ s kfn, s +:+ LF +:+ report_line ctx kfn) visit sb,
     failed || existsb (checker_fails ctx) visit).
Proof.
  revert sb failed.
  induction visit as [|kfn visit IH]; intros sb failed Hsb; cbn [fold_left existsb].
  - by rewrite orb_false_r.
  - rewrite executeCheckers_body_nonempty by done.
    rewrite IH, orb_assoc; [done|]. by apply str_app_nonempty_l.
Qed.

Lemma concat_cons2 (sep l l' : string) (ls : list string) :
  String.concat sep (l :: l' :: ls) = l +:+ sep +:+ String.concat sep (l' :: ls).
Proof. done. Qed.

Lemma concat_lines_loop {X : Type} (f : X → string) (sep : string) (xs : list X)
    (s : string) :
  fold_left (λ acc x, acc +:+ sep +:+ f x) xs s = String.concat sep (s :: map f xs).
Proof.
  revert s. induction xs as [|x xs IH]; intros s; [done|].
  cbn [fold_left map]. rewrite IH, concat_cons2.
  destruct xs as [|x' xs]; [done|].
  cbn [map]. by rewrite !concat_cons2, !str_app_assoc.
Qed.

Lemma concat_nonempty (sep l : string) (ls : list string) :
  l ≠ "" → String.concat sep (l :: ls) ≠ "".
Proof.
  intros Hl. destruct ls as [|l' ls]; [done|].
  rewrite concat_cons2. by apply str_app_nonempty_l.
Qed.

(** [executeCheckers] as a join of lines and a disjunction of failures. *)
Lemma executeCheckers_eq ctx visit :
  executeCheckers visit ctx =
    (match visit with
     | [] => "OK"
     | _ => String.concat LF (map (report_line ctx) visit)
     end,
     existsb (checker_fails ctx) visit).
Proof.
  unfold executeCheckers. destruct visit as [|kfn visit]; [done|].
  cbn [fold_left]. rewrite executeCheckers_body_empty.
  rewrite executeCheckers_loop by apply report_line_nonempty.
  rewrite concat_lines_loop. cbn [map existsb].
  destruct (String.eqb_spec
    (String.concat LF (report_line ctx kfn :: map (report_line ctx) visit)) "") as [E|_];
    [|done].
  by apply concat_nonempty in E; [|apply report_line_nonempty].
Qed.

End HealthFacts.

Section HealthProperties.

Context {Ctx : Type} {T : Type}.
Implicit Types (ctx : Ctx) (visit : list (string * CheckerFunc Ctx)) (a : app Ctx T).

Lemma checker_fails_exists ctx visit :
  existsb (checker_fails ctx) visit = true ↔
  ∃ name fn e, (name, fn) ∈ visit ∧ fn ctx = Some e.
Proof.
  rewrite existsb_exists. split.
  - intros ([name fn] & Hin & Hf). unfold checker_fails in Hf. simpl in Hf.
    destruct (fn ctx) as [e|] eqn:E; [|done].
    exists name, fn, e. split; [by apply list_elem_of_In|done].
  - intros (name & fn & e & Hin & Hf). exists (name, fn).
    split; [by apply list_elem_of_In|]. unfold checker_fails. simpl. by rewrite Hf.
Qed.

(** C5.  Whatever the registry holds and in whatever order [range] yields
    it, [executeCheckers] returns its pair (there is no error result):
    [failed] is true exactly when some registered checker returns a non-nil
    error; the report is ["OK"] for an empty registry and otherwise the
    lines ["name: OK"] or ["name: <error text>"], one per registered checker,
    joined by a line feed; it is never empty. *)
Theorem executeCheckers_report a ctx visit :
  ranges (checkers a) visit →
  ((executeCheckers visit ctx).2 = true ↔
     ∃ name fn e, checkers a !! name = Some fn ∧ fn ctx = Some e) ∧
  (executeCheckers visit ctx).1 =
     (if decide (checkers a = ∅) then "OK"
      else String.concat LF (map (report_line ctx) visit)) ∧
  length (map (report_line ctx) visit) = size (checkers a) ∧
  (∀ name fn, checkers a !! name = Some fn →
     report_line ctx (name, fn) ∈ map (report_line ctx) visit) ∧
  (executeCheckers visit ctx).1 ≠ "".
Proof.
  intros Hv. unfold ranges in Hv. rewrite executeCheckers_eq. cbn [fst snd].
  assert (Hin : ∀ name fn, (name, fn) ∈ visit ↔ checkers a !! name = Some fn).
  { intros name fn. rewrite Hv. apply elem_of_map_to_list. }
  repeat split.
  - intros (name & fn & e & H1 & H2)%checker_fails_exists.
    exists name, fn, e. by rewrite <- Hin.
  - intros (name & fn & e & H1 & H2). apply checker_fails_exists.
    exists name, fn, e. by rewrite Hin.
  - destruct (decide (checkers a = ∅)) as [E|E].
    + rewrite E, map_to_list_empty in Hv. by apply Permutation_nil_r in Hv as ->.
    + destruct visit; [|done]. symmetry in Hv.
      by apply Permutation_nil_r, map_to_list_empty_iff in Hv.
  - by rewrite length_map, Hv, length_map_to_list.
  - intros name fn H. apply list_elem_of_In, (in_map (report_line ctx) visit (name, fn)).
    by apply list_elem_of_In, Hin.
  - destruct visit as [|kfn visit]; [done|].
    cbn [map]. apply concat_nonempty, report_line_nonempty.
Qed.

End HealthProperties.

(** ** Construction *)

Lemma wrap64_id (z : Z) : - 2 ^ 63 ≤ z < 2 ^ 63 → wrap64 z = z.
Proof. intros Hz. unfold wrap64. rewrite Z.mod_small; lia. Qed.

Lemma chan_send_Some (c : chan) :
  chan_len c < chan_cap c →
  chan_send c = Some {| chan_cap := chan_cap c; chan_len := chan_len c + 1 |}.
Proof. intros Hc. unfold chan_send. by apply Z.ltb_lt in Hc as ->. Qed.

Lemma chan_recv_Some (c : chan) :
  0 < chan_len c →
  chan_recv c = Some {| chan_cap := chan_cap c; chan_len := chan_len c - 1 |}.
Proof. intros Hc. unfold chan_recv. by apply Z.ltb_lt in Hc as ->. Qed.

(** The fill loop never waits: the channel has room for each of its sends. *)
Lemma fill_Some (n : nat) (c : chan) :
  chan_len c + Z.of_nat n ≤ chan_cap c →
  fill n c = Some {| chan_cap := chan_cap c; chan_len := chan_len c + Z.of_nat n |}.
Proof.
  revert c. induction n as [|n IH]; intros c Hc; cbn [fill].
  - destruct c as [cp ln]. cbn. do 2 f_equal. lia.
  - rewrite chan_send_Some by lia. rewrite IH; cbn [chan_cap chan_len]; [|lia].
    do 2 f_equal. lia.
Qed.

Section Construction.

Context {Ctx : Type} {T : Type} `{!ServeMux}.
Implicit Types (a : app Ctx T) (cf : ContextFactory Ctx T) (os : list Option).

Lemma initialize_eq a :
  initialize a =
    Some (set_cc (set_mux (set_checkers a ∅) ∅)
            (if 0 <? concurrency (opts a)
             then Some {| chan_cap := concurrency (opts a);
                          chan_len := concurrency (opts a) |}
             else cc a)).
Proof.
  unfold initialize. cbn [opts set_mux set_checkers].
  destruct (0 <? concurrency (opts a)) eqn:E.
  - apply Z.ltb_lt in E. rewrite fill_Some; cbn [make_chan chan_cap chan_len]; [|lia].
    rewrite Z2Nat.id by lia. done.
  - by destruct a.
Qed.

(** [New] returns an application: the options applied to the defaults, an
    empty registry, a counter at zero, and a full pool when the capacity is
    positive, none otherwise. *)
Lemma New_eq cf os :
  New cf os =
    Some {| contextFactory := cf; opts := apply_options os default_options;
            checkers := ∅; mux := ∅;
            cc := (if 0 <? concurrency (apply_options os default_options)
                   then Some {| chan_cap := concurrency (apply_options os default_options);
                                chan_len := concurrency (apply_options os default_options) |}
                   else None);
            readinessFailed := 0 |}.
Proof. unfold New. by rewrite initialize_eq. Qed.

Lemma register_frame a r a' :
  register a r = Ok a' →
  opts a' = opts a ∧ cc a' = cc a ∧ readinessFailed a' = readinessFailed a ∧
  contextFactory a' = contextFactory a.
Proof.
  destruct r as [name fn|pattern fn]; cbn [register]; [by intros [= <-]|].
  unfold HandleFunc. destruct (serveMux_accepts _ _); [by intros [= <-]|done].
Qed.

Lemma setup_frame a regs a' :
  setup a regs = Ok a' →
  opts a' = opts a ∧ cc a' = cc a ∧ readinessFailed a' = readinessFailed a ∧
  contextFactory a' = contextFactory a.
Proof.
  revert a. induction regs as [|r regs IH]; intros a; cbn [setup]; [by intros [= <-]|].
  destruct (register a r) as [a1|v] eqn:Hr; [|done]. intros Hs.
  destruct (IH a1 Hs) as (-> & -> & -> & ->). by apply register_frame in Hr.
Qed.

End Construction.

(** ** Readiness cascade *)

Section Cascade.

Context {Ctx : Type} {T : Type} `{!ServeMux}.
Implicit Types (a : app Ctx T) (ctx : Ctx) (visit : list (string * CheckerFunc Ctx)).

Lemma handleAlive_eq a :
  handleAlive a =
    (a, if (0 <? readinessCascade (opts a)) &&
           (readinessCascade (opts a) <? readinessFailed a)
        then respondText "CASCADED" StatusInternalServerError
        else respondText "OK" StatusOK).
Proof.
  unfold handleAlive, st_bind, st_ret, atomic_LoadInt64.
  destruct (0 <? readinessCascade (opts a)); cbn [andb]; [|done].
  by destruct (readinessCascade (opts a) <? readinessFailed a).
Qed.

Lemma handleReady_eq ctx visit a :
  handleReady ctx visit a =
    if (executeCheckers visit ctx).2
    then (set_readinessFailed a (wrap64 (readinessFailed a + 1)),
          respondText (executeCheckers visit ctx).1 StatusInternalServerError)
    else (set_readinessFailed a 0,
          respondText (executeCheckers visit ctx).1 StatusOK).
Proof.
  unfold handleReady. destruct (executeCheckers visit ctx) as [r [|]]; done.
Qed.

Lemma probe_step_frame a p :
  opts (probe_step a p).1 = opts a ∧ cc (probe_step a p).1 = cc a ∧
  checkers (probe_step a p).1 = checkers a ∧ mux (probe_step a p).1 = mux a.
Proof.
  destruct p as [|ctx visit]; cbn [probe_step].
  - by rewrite handleAlive_eq.
  - rewrite handleReady_eq. by destruct (executeCheckers visit ctx).2.
Qed.

Lemma probe_step_counter a p :
  0 ≤ readinessFailed a < 2 ^ 63 - 1 →
  0 ≤ readinessFailed (probe_step a p).1 ≤ readinessFailed a + 1.
Proof.
  intros Ha. destruct p as [|ctx visit]; cbn [probe_step].
  - rewrite handleAlive_eq. cbn [fst]. lia.
  - rewrite handleReady_eq. destruct (executeCheckers visit ctx).2; cbn [fst readinessFailed set_readinessFailed].
    + rewrite wrap64_id; lia.
    + lia.
Qed.

(** The counter never exceeds the number of probes served. *)
Lemma probes_counter a (ps : list (probe Ctx)) :
  0 ≤ readinessFailed a →
  readinessFailed a + Z.of_nat (length ps) < 2 ^ 63 →
  0 ≤ readinessFailed (probes a ps) ≤ readinessFailed a + Z.of_nat (length ps).
Proof.
  unfold probes. revert a. induction ps as [|p ps IH]; intros a H0 Hlen.
  - cbn. lia.
  - cbn [fold_left]. cbn [length] in Hlen.
    pose proof (probe_step_counter a p ltac:(lia)) as Hp.
    specialize (IH (probe_step a p).1 ltac:(lia) ltac:(lia)).
    cbn [length]. lia.
Qed.

Lemma probes_opts a (ps : list (probe Ctx)) : opts (probes a ps) = opts a.
Proof.
  unfold probes. revert a. induction ps as [|p ps IH]; intros a; [done|].
  cbn [fold_left]. rewrite IH. apply probe_step_frame.
Qed.

(** C2.  From process start ([New], then the registrations of the setup
    phase, none of which panics), after any sequence of probes (fewer than [2^63 - 1] of them, so
    that the [int64] counter is below its maximum): a failed readiness
    evaluation adds one to the counter and a successful one sets it to
    zero; liveness answers 500 ["CASCADED"] exactly when [readinessCascade]
    is positive and the counter is strictly above it, and 200 ["OK"]
    otherwise; with a non-positive [readinessCascade] liveness answers
    200 ["OK"] whatever the counter. *)
Theorem readiness_cascade (cf : ContextFactory Ctx T) (os : list Option)
    (regs : list (registration Ctx T)) (ps : list (probe Ctx)) a0 a1 :
  New cf os = Some a0 →
  setup a0 regs = Ok a1 →
  Z.of_nat (length ps) < 2 ^ 63 - 1 →
  let a := probes a1 ps in
  (∀ ctx visit, (executeCheckers visit ctx).2 = true →
     readinessFailed (handleReady ctx visit a).1 = readinessFailed a + 1) ∧
  (∀ ctx visit, (executeCheckers visit ctx).2 = false →
     readinessFailed (handleReady ctx visit a).1 = 0) ∧
  ((handleAlive a).2 = respondText "CASCADED" StatusInternalServerError ↔
     0 < readinessCascade (opts a) ∧ readinessCascade (opts a) < readinessFailed a) ∧
  ((handleAlive a).2 = respondText "OK" StatusOK ↔
     ¬ (0 < readinessCascade (opts a) ∧ readinessCascade (opts a) < readinessFailed a)) ∧
  (readinessCascade (opts a) ≤ 0 → (handleAlive a).2 = respondText "OK" StatusOK).
Proof.
  intros HNew Hsetup Hlen a.
  assert (Hrf : 0 ≤ readinessFailed a < 2 ^ 63 - 1).
  { destruct (setup_frame _ _ _ Hsetup) as (_ & _ & Hz & _).
    rewrite New_eq in HNew. injection HNew as <-. cbn [readinessFailed] in Hz.
    pose proof (probes_counter a1 ps) as Hc. rewrite Hz in Hc. subst a. lia. }
  rewrite handleAlive_eq. cbn [snd].
  split; [|split; [|split; [|split]]].
  - intros ctx visit Hf. rewrite handleReady_eq, Hf.
    cbn [fst readinessFailed set_readinessFailed]. rewrite wrap64_id; lia.
  - intros ctx visit Hf. by rewrite handleReady_eq, Hf.
  - destruct (Z.ltb_spec 0 (readinessCascade (opts a))),
      (Z.ltb_spec (readinessCascade (opts a)) (readinessFailed a));
      cbn [andb]; split; intros ?; first [done | lia].
  - destruct (Z.ltb_spec 0 (readinessCascade (opts a))),
      (Z.ltb_spec (readinessCascade (opts a)) (readinessFailed a));
      cbn [andb]; split; intros ?; first [done | lia].
  - intros Hrc. apply Z.ltb_ge in Hrc. by rewrite Hrc.
Qed.

End Cascade.

(** ** Dispatch *)

Section Dispatch.

Context {Ctx : Type} {T : Type} `{!Context T} `{!Consts} `{!ServeMux}.
Implicit Types (a : app Ctx T) (req : Request Ctx) (act : action Ctx T).

Lemma HandleFunc_closure_eq (cf : ContextFactory Ctx T) pattern (fn : HandlerFunc T) req :
  HandleFunc_closure cf pattern fn req =
    match cf req with
    | Ok c => ([AFactory req; AHandler pattern c; APerform c],
               match Perform c with Panic v => Panic v | Ok _ => fn c end)
    | Panic v => ([AFactory req], Panic v)
    end.
Proof.
  unfold HandleFunc_closure, go_bind, go_call, with_defer. by destruct (cf req).
Qed.

Lemma h_ServeHTTP_inner a req :
  Forall (λ act, is_inner act = true) (h_ServeHTTP a req).1.
Proof.
  unfold h_ServeHTTP.
  destruct (serveMux_match _ _) as [pattern|]; [|by repeat constructor].
  destruct (mux a !! pattern) as [fn|]; [|by repeat constructor].
  rewrite HandleFunc_closure_eq. destruct (contextFactory a req); by repeat constructor.
Qed.

Lemma debug_ServeHTTP_single req :
  ∃ act, debug_ServeHTTP req = ([act], Ok tt) ∧ is_debug act = true.
Proof.
  unfold debug_ServeHTTP, go_call.
  destruct (serveMux_match _ _) as [pattern|]; [|by eexists].
  repeat case_match; by eexists.
Qed.

Lemma ServeHTTP_debug a req :
  String.prefix DebugPathPrefix (URL_Path req) = true →
  ServeHTTP a req = debug_ServeHTTP req.
Proof. intros Hp. unfold ServeHTTP. by rewrite Hp. Qed.

Lemma ServeHTTP_gated a req c :
  String.prefix DebugPathPrefix (URL_Path req) = false →
  cc a = Some c →
  ServeHTTP a req =
    (ARecv :: (h_ServeHTTP a req).1 ++ [ASend], (h_ServeHTTP a req).2).
Proof.
  intros Hp Hc. unfold ServeHTTP. rewrite Hp, Hc.
  unfold go_bind, go_call, with_defer. by destruct (h_ServeHTTP a req).
Qed.

Lemma ServeHTTP_ungated a req :
  String.prefix DebugPathPrefix (URL_Path req) = false →
  cc a = None →
  ServeHTTP a req = h_ServeHTTP a req.
Proof. intros Hp Hc. unfold ServeHTTP. by rewrite Hp, Hc. Qed.

(** A step that is neither a receive nor a send never waits and leaves the
    pool as it is. *)
Lemma exec_no_wait visit act a' :
  permit_delta act = 0 →
  ∃ a'' r, exec visit act a' = Some (a'', r) ∧ cc a'' = cc a' ∧
           opts a'' = opts a'.
Proof.
  intros Hd. destruct act; try done; cbn [exec]; try by eexists _, _.
  - rewrite handleAlive_eq. by eexists _, _.
  - rewrite handleReady_eq. destruct (executeCheckers visit ctx).2; by eexists _, _.
Qed.

Lemma is_inner_delta act : is_inner act = true → permit_delta act = 0.
Proof. by destruct act. Qed.

Lemma is_debug_delta act : is_debug act = true → permit_delta act = 0.
Proof. by destruct act. Qed.

End Dispatch.

Section DispatchProperties.

Context {Ctx : Type} {T : Type} `{!Context T} `{!Consts} `{!ServeMux}.
Implicit Types (a : app Ctx T) (req : Request Ctx) (act : action Ctx T)
  (s : server Ctx T) (visit : list (string * CheckerFunc Ctx)).

(** The next step of the request accepted last. *)
Lemma server_step_last a (ts : list (thread Ctx T)) visit act rest n w a'' r :
  exec visit act a = Some (a'', r) →
  server_step
    {| shared := a;
       threads := ts ++ [{| todo := act :: rest; held := n; written := w |}] |}
    (Run (length ts) visit) =
    {| shared := a'';
       threads := ts ++ [{| todo := rest; held := n + permit_delta act;
                            written := match r with Some _ => r | None => w end |}] |}.
Proof.
  intros He. unfold server_step. cbn [shared threads].
  rewrite list_lookup_middle by done. rewrite He. f_equal.
  rewrite insert_app_r_alt by done. by rewrite Nat.sub_diag.
Qed.

Lemma server_step_accept s req :
  server_step s (Accept req) =
    {| shared := shared s;
       threads := threads s ++
         [{| todo := (ServeHTTP (shared s) req).1; held := 0; written := None |}] |}.
Proof. done. Qed.

(** C9.  A request routed to a pattern registered by [HandleFunc] performs
    these steps: the factory builds one context, the handler is called with
    it, and then [Perform] is called on it, once, whether the handler
    returns or panics; behind the
    admission control the same steps lie between the receive of a permit and
    the deferred send that returns it, so a request that found a permit
    ends holding none and leaves the pool as it found it, also when the
    handler panics. *)
Theorem dispatch_finalizes a a' pattern (fn : HandlerFunc T) req c :
  HandleFunc pattern fn a = Ok a' →
  serveMux_match (dom (mux a')) (URL_Path req) = Some pattern →
  contextFactory a' req = Ok c →
  h_ServeHTTP a' req =
    ([AFactory req; AHandler pattern c; APerform c],
     match Perform c with Panic v => Panic v | Ok _ => fn c end) ∧
  List.filter is_perform (h_ServeHTTP a' req).1 = [APerform c] ∧
  (String.prefix DebugPathPrefix (URL_Path req) = false →
   ∀ ch, cc a' = Some ch →
     (ServeHTTP a' req).1 =
       [ARecv; AFactory req; AHandler pattern c; APerform c; ASend] ∧
     (0 < chan_len ch ≤ chan_cap ch →
      ∀ (ts : list (thread Ctx T)) visit,
        server_run {| shared := a'; threads := ts |}
          (Accept req :: replicate 5 (Run (length ts) visit)) =
        {| shared := a';
           threads := ts ++ [{| todo := []; held := 0; written := None |}] |})).
Proof.
  intros Hreg Hm Hc.
  assert (Hfn : mux a' !! pattern = Some fn).
  { unfold HandleFunc in Hreg. destruct (serveMux_accepts _ _); [|done].
    injection Hreg as <-. cbn [mux set_mux]. apply lookup_insert_eq. }
  assert (Hh : h_ServeHTTP a' req =
    ([AFactory req; AHandler pattern c; APerform c],
     match Perform c with Panic v => Panic v | Ok _ => fn c end)).
  { unfold h_ServeHTTP. rewrite Hm, Hfn, HandleFunc_closure_eq. by rewrite Hc. }
  split; [done|]. split; [by rewrite Hh|].
  intros Hp ch Hch.
  assert (Hs : (ServeHTTP a' req).1 =
    [ARecv; AFactory req; AHandler pattern c; APerform c; ASend]).
  { rewrite (ServeHTTP_gated _ _ ch) by done. by rewrite Hh. }
  split; [done|]. intros Hlen ts visit.
  unfold server_run. cbn [fold_left replicate].
  rewrite server_step_accept. cbn [shared threads]. rewrite Hs.
  rewrite (server_step_last a' ts visit ARecv _ 0 None
             (set_cc a' (Some {| chan_cap := chan_cap ch; chan_len := chan_len ch - 1 |})) None).
  2:{ cbn [exec]. rewrite Hch, chan_recv_Some by lia. done. }
  rewrite (server_step_last _ ts visit (AFactory req) _ _ None _ None) by done.
  rewrite (server_step_last _ ts visit (AHandler pattern c) _ _ None _ None) by done.
  rewrite (server_step_last _ ts visit (APerform c) _ _ None _ None) by done.
  rewrite (server_step_last _ ts visit ASend _ _ None (set_cc a' (Some ch)) None).
  2:{ cbn [exec set_cc cc]. rewrite chan_send_Some; cbn [chan_len chan_cap]; [|lia].
      destruct ch as [cp ln]. cbn [chan_len chan_cap]. do 5 f_equal. lia. }
  cbn [permit_delta]. f_equal.
  unfold set_cc. rewrite <- Hch. by destruct a'.
Qed.

(** C8.  A request whose path begins with the diagnostics prefix is served
    by the diagnostics handler alone: its only step is a diagnostics step,
    it neither receives from nor sends to the pool, and the server performs
    it at once in every state of the pool, an empty one included, leaving
    the pool as it is. *)
Theorem diagnostics_bypass a req :
  String.prefix DebugPathPrefix (URL_Path req) = true →
  ServeHTTP a req = debug_ServeHTTP req ∧
  ∃ act, (ServeHTTP a req).1 = [act] ∧ is_debug act = true ∧
         permit_delta act = 0 ∧
         ∀ s visit, shared s = a →
           ∃ a' w, server_run s [Accept req; Run (length (threads s)) visit] =
                     {| shared := a';
                        threads := threads s ++ [{| todo := []; held := 0; written := w |}] |} ∧
                   cc a' = cc a.
Proof.
  intros Hp. split; [by apply ServeHTTP_debug|].
  rewrite ServeHTTP_debug by done.
  destruct (debug_ServeHTTP_single (T:=T) req) as (act & Hact & Hd).
  rewrite Hact. exists act. split; [done|]. split; [done|].
  split; [by apply is_debug_delta|].
  intros [a0 ts] visit Ha. cbn [shared threads] in *. subst a0.
  destruct (exec_no_wait visit act a (is_debug_delta _ Hd)) as (a' & r & He & Hcc & _).
  exists a', (match r with Some _ => r | None => None end).
  split; [|done].
  unfold server_run. cbn [fold_left].
  rewrite server_step_accept. cbn [shared threads].
  rewrite ServeHTTP_debug, Hact by done. cbn [fst].
  rewrite (server_step_last a ts visit act [] 0 None a' r He).
  by rewrite (is_debug_delta _ Hd).
Qed.

End DispatchProperties.

(** ** Admission control *)

Section Admission.

Context {Ctx : Type} {T : Type} `{!Context T} `{!Consts} `{!ServeMux}.
Implicit Types (a : app Ctx T) (req : Request Ctx) (act : action Ctx T)
  (s : server Ctx T) (t : thread Ctx T) (ts : list (thread Ctx T))
  (visit : list (string * CheckerFunc Ctx)).

Lemma held_total_app a ts1 ts2 :
  held_total {| shared := a; threads := ts1 ++ ts2 |} =
  held_total {| shared := a; threads := ts1 |} +
  held_total {| shared := a; threads := ts2 |}.
Proof.
  unfold held_total. cbn [threads].
  induction ts1 as [|t ts1 IH]; cbn [List.app foldr]; lia.
Qed.

Lemma held_total_insert a a' ts tid t t' :
  ts !! tid = Some t →
  held_total {| shared := a'; threads := <[tid := t']> ts |} =
  held_total {| shared := a; threads := ts |} - held t + held t'.
Proof.
  unfold held_total. cbn [threads]. revert tid.
  induction ts as [|t0 ts IH]; intros [|tid] Hl; try done.
  - injection Hl as ->. cbn. lia.
  - change (<[S tid := t']> (t0 :: ts)) with (t0 :: <[tid := t']> ts).
    change ((t0 :: ts) !! S tid) with (ts !! tid) in Hl.
    cbn [foldr]. rewrite (IH tid Hl). lia.
Qed.

Lemma gated_shape_held t : gated_shape t → 0 ≤ held t ∧ (active t = true → held t = 1).
Proof.
  unfold active. intros [[Hz Hs]|[Ho _]]; [|lia]. split; [lia|].
  destruct Hs as [->|[(act & -> & Hd)|(mid & _ & ->)]]; [done| |done].
  by destruct act.
Qed.

(** Every request inside the user-facing handler holds a permit. *)
Lemma active_count_le_held a ts :
  Forall gated_shape ts →
  0 ≤ active_count {| shared := a; threads := ts |} ≤
      held_total {| shared := a; threads := ts |}.
Proof.
  unfold active_count, held_total. cbn [threads].
  induction 1 as [|t ts Ht _ IH]; [done|].
  apply gated_shape_held in Ht as [Hz Ho].
  rewrite filter_cons. cbn [foldr]. destruct (decide (active t = true)) as [E|E].
  - rewrite (Ho E). cbn [length]. lia.
  - lia.
Qed.

Lemma ServeHTTP_gated_shape a req c :
  cc a = Some c →
  gated_shape {| todo := (ServeHTTP a req).1; held := 0; written := None |}.
Proof.
  intros Hc. left. split; [done|]. cbn [todo].
  destruct (String.prefix DebugPathPrefix (URL_Path req)) eqn:Hp.
  - right. left. rewrite ServeHTTP_debug by done.
    destruct (debug_ServeHTTP_single (T:=T) req) as (act & -> & Hd). by exists act.
  - right. right. rewrite (ServeHTTP_gated a req c) by done.
    exists (h_ServeHTTP a req).1. split; [apply h_ServeHTTP_inner|done].
Qed.

(** Every move of the scheduler keeps the invariant of the pool. *)
Lemma server_step_invariant C s mv :
  pool_invariant C s → pool_invariant C (server_step s mv).
Proof.
  destruct s as [a ts]. intros ((c & Hc & Hcap & Hlen) & Hsh & Htot).
  unfold available in Htot. cbn [shared threads] in *. rewrite Hc in Htot.
  destruct mv as [req|tid visit]; cbn [server_step shared threads].
  - (* a request is accepted *)
    split; [by exists c|]. split.
    + apply Forall_app. split; [done|]. constructor; [|constructor].
      by apply (ServeHTTP_gated_shape a req c).
    + rewrite held_total_app. unfold available. cbn [shared]. rewrite Hc.
      unfold held_total in *. cbn [threads foldr held] in *. lia.
  - (* request [tid] moves *)
    destruct (ts !! tid) as [[[|act rest] n w]|] eqn:Hl;
      try (split; [by exists c|]; split; [done|];
           unfold available; cbn [shared]; by rewrite Hc).
    pose proof (Forall_lookup_1 _ _ _ _ Hsh Hl) as Ht.
    destruct Ht as [[Hz Ht]|[Ho Ht]]; cbn [held todo] in *.
    + destruct Ht as [?|[(act' & Heq & Hd)|(mid & Hmid & Heq)]]; [done| |].
      * (* a diagnostics step *)
        injection Heq as -> ->.
        destruct (exec_no_wait visit act' a (is_debug_delta _ Hd))
          as (a'' & r & -> & Hcc & _).
        split; [exists c; cbn [shared]; by rewrite Hcc|]. split.
        -- apply Forall_insert; [done|]. left. split; [|by left].
           cbn [held]. rewrite (is_debug_delta _ Hd). lia.
        -- rewrite (held_total_insert a _ _ _ _ _ Hl). unfold available.
           cbn [shared held]. rewrite Hcc, Hc, (is_debug_delta _ Hd). lia.
      * (* the receive of a permit *)
        injection Heq as -> ->. cbn [exec]. rewrite Hc. unfold chan_recv.
        destruct (Z.ltb_spec 0 (chan_len c)).
        -- split; [eexists; cbn [shared set_cc cc]; split; [done|]; cbn; lia|].
           split.
           ++ apply Forall_insert; [done|]. right. split; [cbn; lia|]. by exists mid.
           ++ rewrite (held_total_insert a _ _ _ _ _ Hl). unfold available.
              cbn [shared set_cc cc held chan_len permit_delta]. lia.
        -- split; [by exists c|]. split; [done|].
           unfold available. cbn [shared]. by rewrite Hc.
    + destruct Ht as (mid & Hmid & Heq). destruct mid as [|m mid].
      * (* the send that returns the permit *)
        injection Heq as -> ->. cbn [exec]. rewrite Hc. unfold chan_send.
        destruct (Z.ltb_spec (chan_len c) (chan_cap c)).
        -- split; [eexists; cbn [shared set_cc cc]; split; [done|]; cbn; lia|].
           split.
           ++ apply Forall_insert; [done|]. left. split; [cbn; lia|]. by left.
           ++ rewrite (held_total_insert a _ _ _ _ _ Hl). unfold available.
              cbn [shared set_cc cc held chan_len permit_delta]. lia.
        -- split; [by exists c|]. split; [done|].
           unfold available. cbn [shared]. by rewrite Hc.
      * (* a step inside the user-facing handler *)
        injection Heq as -> ->. apply Forall_cons in Hmid as [Hm Hmid].
        destruct (exec_no_wait visit m a (is_inner_delta _ Hm))
          as (a'' & r & -> & Hcc & _).
        split; [exists c; cbn [shared]; by rewrite Hcc|]. split.
        -- apply Forall_insert; [done|]. right. split; [|by exists mid].
           cbn [held]. rewrite (is_inner_delta _ Hm). lia.
        -- rewrite (held_total_insert a _ _ _ _ _ Hl). unfold available.
           cbn [shared held]. rewrite Hcc, Hc, (is_inner_delta _ Hm). lia.
Qed.

Lemma server_run_invariant C s (mvs : list (sched Ctx)) :
  pool_invariant C s → pool_invariant C (server_run s mvs).
Proof.
  unfold server_run. revert s. induction mvs as [|mv mvs IH]; intros s Hs; [done|].
  cbn [fold_left]. by apply IH, server_step_invariant.
Qed.

(** C6.  With a positive capacity [C], in every state the server reaches
    from [New] and the setup-time registrations (none of which panics),
    under every schedule of
    accepted requests and steps: at most [C] requests are inside the
    user-facing handler, and the permits held by requests plus the permits
    in the pool are exactly [C]. *)
Theorem admission_bound (cf : ContextFactory Ctx T) (os : list Option)
    (regs : list (registration Ctx T)) (mvs : list (sched Ctx)) a0 a1 :
  New cf os = Some a0 →
  setup a0 regs = Ok a1 →
  0 < concurrency (opts a0) →
  let s := server_run (boot a1) mvs in
  active_count s ≤ concurrency (opts a0) ∧
  held_total s + available s = concurrency (opts a0) ∧
  0 ≤ available s.
Proof.
  intros HNew Hsetup Hpos s.
  assert (Hinv : pool_invariant (concurrency (opts a0)) s).
  { apply server_run_invariant. unfold boot, pool_invariant, available.
    cbn [shared threads]. destruct (setup_frame _ _ _ Hsetup) as (_ & -> & _).
    rewrite New_eq in HNew. injection HNew as <-. cbn [opts cc] in *.
    apply Z.ltb_lt in Hpos as Hb. rewrite Hb.
    split; [eexists; split; [done|]; cbn; lia|]. split; [done|].
    unfold held_total. cbn. lia. }
  destruct Hinv as ((c & Hc & Hcap & Hlen) & Hsh & Htot).
  pose proof (active_count_le_held (shared s) (threads s) Hsh) as Hact.
  assert (Hs : {| shared := shared s; threads := threads s |} = s) by by destruct s.
  rewrite Hs in Hact. unfold available in *. rewrite Hc in *. lia.
Qed.

End Admission.

Section ConstructionProperties.

Context {Ctx : Type} {T : Type} `{!Context T} `{!Consts} `{!ServeMux}.
Implicit Types (a : app Ctx T) (req : Request Ctx) (act : action Ctx T)
  (s : server Ctx T) (visit : list (string * CheckerFunc Ctx)).

(** C7.  [New] always returns an application, with the options applied to
    the defaults.  Without options the pool has capacity 128 and is full,
    and [readinessCascade] is 5.  With a non-positive [concurrency] the
    channel stays nil, and then no request receives from or sends to a pool:
    a request outside the diagnostics prefix runs [a.h.ServeHTTP] alone, and
    every step of every request is performed without waiting. *)
Theorem construction_pool (cf : ContextFactory Ctx T) (os : list Option)
    (regs : list (registration Ctx T)) :
  ∃ a0, New cf os = Some a0 ∧
    opts a0 = apply_options os default_options ∧
    (os = [] →
       cc a0 = Some {| chan_cap := 128; chan_len := 128 |} ∧
       concurrency (opts a0) = 128 ∧ readinessCascade (opts a0) = 5) ∧
    (concurrency (opts a0) ≤ 0 →
       cc a0 = None ∧
       ∀ a, setup a0 regs = Ok a →
         cc a = None ∧
         ∀ req,
           (String.prefix DebugPathPrefix (URL_Path req) = false →
              ServeHTTP a req = h_ServeHTTP a req) ∧
           Forall (λ act, permit_delta act = 0 ∧
                          ∀ visit a', is_Some (exec visit act a'))
                  (ServeHTTP a req).1).
Proof.
  rewrite New_eq. eexists. split; [done|]. cbn [opts cc]. split; [done|]. split.
  - by intros ->.
  - intros Hc. apply Z.ltb_ge in Hc as Hb. rewrite Hb. split; [done|].
    intros a Hsetup. destruct (setup_frame _ _ _ Hsetup) as (_ & Hcc & _).
    cbn [cc] in Hcc. split; [done|]. intros req. split.
    + intros Hp. by apply ServeHTTP_ungated.
    + assert (Hall : Forall (λ act, permit_delta act = 0) (ServeHTTP a req).1).
      { destruct (String.prefix DebugPathPrefix (URL_Path req)) eqn:Hp.
        - rewrite ServeHTTP_debug by done.
          destruct (debug_ServeHTTP_single (T:=T) req) as (act & -> & Hd).
          constructor; [by apply is_debug_delta|constructor].
        - rewrite ServeHTTP_ungated by done.
          eapply Forall_impl; [apply h_ServeHTTP_inner|].
          intros act. apply is_inner_delta. }
      eapply Forall_impl; [exact Hall|]. intros act Hd. split; [done|].
      intros visit a'. destruct (exec_no_wait visit act a' Hd) as (? & ? & -> & _).
      by eexists.
Qed.

(** C10.  The liveness handler returns the application state it was given;
    any number of liveness probes leave the state as it is; a request the
    diagnostics mux routes to the liveness pattern performs the liveness
    step and nothing else; a server step that runs the liveness handler
    leaves the shared state as it is; and a server step that changes the
    counter is a step of the readiness handler. *)
Theorem liveness_frame a :
  (handleAlive a).1 = a ∧
  (∀ n : nat, probes a (replicate n ProbeAlive) = a) ∧
  (∀ req,
     String.prefix DebugPathPrefix (URL_Path req) = true →
     serveMux_match debug_patterns (URL_Path req) = Some DebugPathAlive →
     (ServeHTTP a req).1 = [AAlive]) ∧
  (∀ s tid visit rest n w,
     threads s !! tid = Some {| todo := AAlive :: rest; held := n; written := w |} →
     shared (server_step s (Run tid visit)) = shared s) ∧
  (∀ s mv,
     readinessFailed (shared (server_step s mv)) ≠ readinessFailed (shared s) →
     ∃ tid visit ctx rest n w,
       mv = Run tid visit ∧
       threads s !! tid = Some {| todo := AReady ctx :: rest; held := n; written := w |}).
Proof.
  split; [by rewrite handleAlive_eq|]. split; [|split; [|split]].
  - intros n. unfold probes. induction n as [|n IH]; [done|].
    cbn [replicate fold_left probe_step]. by rewrite handleAlive_eq.
  - intros req Hp Hm. rewrite ServeHTTP_debug by done.
    unfold debug_ServeHTTP. by rewrite Hm, String.eqb_refl.
  - intros s tid visit rest n w Hl. cbn [server_step]. rewrite Hl.
    cbn [exec]. by rewrite handleAlive_eq.
  - intros s [req|tid visit] Hne; [done|]. cbn [server_step] in Hne.
    destruct (threads s !! tid) as [[[|act rest] n w]|] eqn:Hl; try done.
    destruct act as [| | |ctx| | | | | | |]; cbn [exec] in Hne; try done.
    + destruct (cc (shared s)) as [c|]; [|done]. by destruct (chan_recv c).
    + destruct (cc (shared s)) as [c|]; [|done]. by destruct (chan_send c).
    + by rewrite handleAlive_eq in Hne.
    + by exists tid, visit, ctx, rest, n, w.
Qed.

End ConstructionProperties.

(** ** Request normalizer *)

Lemma query_key_inj (k k' : string) : query_key k = query_key k' → k = k'.
Proof. unfold query_key. intros E. by simplify_eq. Qed.

Lemma header_key_not_query_key (h k : string) : header_key h ≠ query_key k.
Proof. unfold header_key, query_key. intros E. by simplify_eq. Qed.

Section Writes.

Implicit Types (m : gmap string any) (l : list (string * any)).

Lemma fold_write_dom l m key :
  key ∈ dom (fold_left write l m) ↔ key ∈ dom m ∨ key ∈ l.*1.
Proof.
  revert m. induction l as [|[k v] l IH]; intros m; cbn [fold_left fmap list_fmap].
  - set_solver.
  - rewrite IH. unfold write. cbn [fst snd]. rewrite dom_insert. set_solver.
Qed.

Lemma fold_write_frame l m key :
  key ∉ l.*1 → fold_left write l m !! key = m !! key.
Proof.
  revert m. induction l as [|[k v] l IH]; intros m Hk; [done|].
  cbn [fold_left]. rewrite IH by set_solver.
  unfold write. cbn [fst snd]. apply lookup_insert_ne. set_solver.
Qed.

(** The last write to a key decides its value; when all writes to the key
    carry the same value, that value is read. *)
Lemma fold_write_lookup l m key v :
  (key, v) ∈ l → (∀ v', (key, v') ∈ l → v' = v) →
  fold_left write l m !! key = Some v.
Proof.
  induction l as [|[k w] l IH] using rev_ind; intros Hin Hun; [by apply not_elem_of_nil in Hin|].
  rewrite fold_left_app. cbn [fold_left]. unfold write at 1. cbn [fst snd].
  destruct (decide (k = key)) as [->|Hne].
  - rewrite lookup_insert_eq. f_equal. apply Hun. set_solver.
  - rewrite lookup_insert_ne by done. apply IH.
    + apply elem_of_app in Hin as [?|Hin]; [done|]. set_solver.
    + intros v' Hv'. apply Hun. set_solver.
Qed.

Lemma flatten_query_fold qs m :
  fold_left flatten_query_entry qs m = fold_left write (query_writes qs) m.
Proof.
  revert m. induction qs as [|[k vs] qs IH]; intros m; [done|].
  cbn [fold_left]. rewrite IH. done.
Qed.

Lemma flatten_header_fold hs m :
  fold_left flatten_header_entry hs m = fold_left write (header_writes hs) m.
Proof.
  revert m. induction hs as [|[k vs] hs IH]; intros m; [done|].
  cbn [fold_left]. rewrite IH. done.
Qed.

Lemma elem_of_query_writes qs key v :
  (key, v) ∈ query_writes qs ↔
  ∃ k vs, (k, vs) ∈ qs ∧ v = of_flat (flattenSlice vs) ∧ (key = k ∨ key = query_key k).
Proof.
  unfold query_writes. rewrite list_elem_of_bind. split.
  - intros ([k vs] & Hin & Hqs). cbn [fst snd] in Hin. exists k, vs.
    set_solver.
  - intros (k & vs & Hin & -> & Hk). exists (k, vs). cbn [fst snd].
    set_solver.
Qed.

Lemma elem_of_header_writes hs key v :
  (key, v) ∈ header_writes hs ↔
  ∃ h vs, (h, vs) ∈ hs ∧ v = of_flat (flattenSlice vs) ∧ key = header_key h.
Proof.
  unfold header_writes. rewrite list_elem_of_fmap. split.
  - intros ([h vs] & E & Hin). cbn [fst snd] in E. exists h, vs. by simplify_eq.
  - intros (h & vs & Hin & -> & ->). by exists (h, vs).
Qed.

End Writes.

Section NormalizerProperties.

Context {Ctx : Type} `{!Decoders}.
Implicit Types (m : gmap string any) (req : Request Ctx)
  (qs hs : list (string * list string)).

Lemma flatten_query_header_writes qs hs m :
  flatten_query_header qs hs m =
    fold_left write (query_writes qs ++ header_writes hs) m.
Proof.
  unfold flatten_query_header.
  by rewrite flatten_query_fold, flatten_header_fold, fold_left_app.
Qed.

Lemma ranges_elem_of {V : Type} (M : gmap string V) (l : list (string * V)) k v :
  ranges M l → (k, v) ∈ l ↔ M !! k = Some v.
Proof. unfold ranges. intros ->. apply elem_of_map_to_list. Qed.

(** What steps 1 and 2 leave in the map: the keys it had, every query
    parameter under its bare key and its [query_] key, every header under its
    [header_] key; the [query_] key holds the flattened values of its
    parameter unless the key is itself the name of a parameter, and the
    [header_] key those of its header unless two headers share the key. *)
Lemma flatten_query_header_spec (Q R : gmap string (list string)) qs hs m :
  ranges Q qs → ranges R hs →
  (∀ key, key ∈ dom (flatten_query_header qs hs m) ↔
     key ∈ dom m ∨
     (∃ k, k ∈ dom Q ∧ (key = k ∨ key = query_key k)) ∨
     (∃ h, h ∈ dom R ∧ key = header_key h)) ∧
  (∀ k vs, Q !! k = Some vs → query_key k ∉ dom Q →
     flatten_query_header qs hs m !! query_key k = Some (of_flat (flattenSlice vs))) ∧
  (∀ h vs, R !! h = Some vs →
     (∀ h', h' ∈ dom R → header_key h' = header_key h → h' = h) →
     flatten_query_header qs hs m !! header_key h = Some (of_flat (flattenSlice vs))).
Proof.
  intros HQ HH. split; [|split].
  - intros key. rewrite flatten_query_header_writes, fold_write_dom.
    rewrite fmap_app, elem_of_app, !list_elem_of_fmap.
    split.
    + intros [?|[([k' v] & -> & Hin)|([k' v] & -> & Hin)]]; [by left|right..].
      * apply elem_of_query_writes in Hin as (k & vs & Hin & _ & Hk).
        left. exists k. split; [|done].
        apply elem_of_dom. exists vs. by apply (ranges_elem_of Q qs).
      * apply elem_of_header_writes in Hin as (h & vs & Hin & _ & Hk).
        right. exists h. split; [|done].
        apply elem_of_dom. exists vs. by apply (ranges_elem_of R hs).
    + intros [?|[(k & [vs Hk]%elem_of_dom & Hkey)|(h & [vs Hh]%elem_of_dom & ->)]];
        [by left|right..].
      * left. exists (key, of_flat (flattenSlice vs)). split; [done|].
        apply elem_of_query_writes. exists k, vs.
        split; [by apply (ranges_elem_of Q qs)|done].
      * right. exists (header_key h, of_flat (flattenSlice vs)). split; [done|].
        apply elem_of_header_writes. exists h, vs.
        split; [by apply (ranges_elem_of R hs)|done].
  - intros k vs Hk Hfresh. unfold flatten_query_header.
    rewrite flatten_header_fold, fold_write_frame.
    2:{ rewrite list_elem_of_fmap. intros ([k' v] & E & Hin). cbn [fst] in E. subst k'.
        apply elem_of_header_writes in Hin as (h & _ & _ & _ & E).
        by apply (header_key_not_query_key h k). }
    rewrite flatten_query_fold. apply fold_write_lookup.
    + apply elem_of_query_writes. exists k, vs.
      split; [by apply (ranges_elem_of Q qs)|]. split; [done|by right].
    + intros v' (k' & vs' & Hin & -> & [E|E])%elem_of_query_writes.
      * exfalso. apply Hfresh, elem_of_dom. exists vs'. rewrite E.
        by apply (ranges_elem_of Q qs).
      * apply query_key_inj in E as <-.
        apply (ranges_elem_of Q qs) in Hin; [|done]. congruence.
  - intros h vs Hh Hinj. unfold flatten_query_header.
    rewrite flatten_header_fold. apply fold_write_lookup.
    + apply elem_of_header_writes. exists h, vs.
      split; [by apply (ranges_elem_of R hs)|done].
    + intros v' (h' & vs' & Hin & -> & E)%elem_of_header_writes.
      apply (ranges_elem_of R hs) in Hin; [|done].
      assert (h' = h) as ->; [|congruence].
      apply Hinj; [|done]. apply elem_of_dom. by exists vs'.
Qed.

Lemma flattenRequest_returns m req : ∃ res, flattenRequest m req res.
Proof.
  eexists. exists (map_to_list (URL_Query req)), (map_to_list (Header req)).
  by unfold ranges.
Qed.

(** C3.  A request with a body that is not empty and a [Content-Type] of none
    of the recognized families: the call returns, with the error
    [UnsupportedContentType]; the map is exactly as steps 1 and 2 left it, so
    every query parameter and every header is present under its key. *)
Theorem flattenRequest_unsupported m req :
  Body req ≠ "" → unrecognized_content_type req →
  (∃ res, flattenRequest m req res) ∧
  ∀ res, flattenRequest m req res →
    res.2 = Some UnsupportedContentType ∧
    (∃ qs hs, ranges (URL_Query req) qs ∧ ranges (Header req) hs ∧
              res.1 = flatten_query_header qs hs m) ∧
    (∀ key, key ∈ dom res.1 ↔
       key ∈ dom m ∨
       (∃ k, k ∈ dom (URL_Query req) ∧ (key = k ∨ key = query_key k)) ∨
       (∃ h, h ∈ dom (Header req) ∧ key = header_key h)) ∧
    (∀ k vs, URL_Query req !! k = Some vs → query_key k ∉ dom (URL_Query req) →
       res.1 !! query_key k = Some (of_flat (flattenSlice vs))) ∧
    (∀ h vs, Header req !! h = Some vs →
       (∀ h', h' ∈ dom (Header req) → header_key h' = header_key h → h' = h) →
       res.1 !! header_key h = Some (of_flat (flattenSlice vs))).
Proof.
  intros Hbody (Hj & Hf & Ht). split; [apply flattenRequest_returns|].
  intros res (qs & hs & Hqs & Hhs & ->). unfold flattenRequest_in.
  apply String.eqb_neq in Hbody. rewrite Hbody, Hj, Hf, Ht. cbn [fst snd].
  split; [done|]. split; [by exists qs, hs|].
  by apply flatten_query_header_spec.
Qed.

(** C4.  [flattenSlice] of a one-element sequence is its element, bare, and
    of a longer sequence the sequence itself, in order and of the same
    length; the query, header and form steps store exactly this value for
    each of their fields. *)
Theorem flattenSlice_scalar_or_sequence {E : Type} (s : list E) m (k : string)
    (vs : list string) :
  (∀ v, s = [v] → flattenSlice s = inl v) ∧
  ((1 < length s)%nat → flattenSlice s = inr s) ∧
  flatten_query_entry m (k, vs) !! query_key k = Some (of_flat (flattenSlice vs)) ∧
  flatten_header_entry m (k, vs) !! header_key k = Some (of_flat (flattenSlice vs)) ∧
  flatten_form_entry m (k, vs) !! k = Some (of_flat (flattenSlice vs)).
Proof.
  split; [by intros v ->|]. split.
  - intros Hlen. destruct s as [|x [|y s]]; cbn [length] in Hlen; [lia..|done].
  - unfold flatten_query_entry, flatten_header_entry, flatten_form_entry.
    cbn [fst snd]. by rewrite !lookup_insert_eq.
Qed.

(** C1, as the code has it.  For the [GET] request of the test file, to
    [/get?aaa=bbb] with no header and an empty body, the call leaves exactly
    the map with [aaa] and [query_aaa], both holding ["bbb"], and returns no
    error; and for every request with an empty body the keys of the map are
    the keys it had, the bare key and the [query_] key of every query
    parameter, and the [header_] key of every header. *)
Theorem flattenRequest_query_keys :
  (∀ res, flattenRequest ∅ Fixtures.req_get res →
     res = ({[ "aaa" := AString "bbb"; "query_aaa" := AString "bbb" ]}, None)) ∧
  (∀ m req res, Body req = "" → flattenRequest m req res →
     res.2 = None ∧
     ∀ key, key ∈ dom res.1 ↔
       key ∈ dom m ∨
       (∃ k, k ∈ dom (URL_Query req) ∧ (key = k ∨ key = query_key k)) ∨
       (∃ h, h ∈ dom (Header req) ∧ key = header_key h)).
Proof.
  split.
  - intros res (qs & hs & Hqs & Hhs & ->). unfold ranges in *.
    cbn [Fixtures.req_get URL_Query Header] in *.
    rewrite map_to_list_singleton in Hqs. apply Permutation_singleton_r in Hqs as ->.
    rewrite map_to_list_empty in Hhs. apply Permutation_nil_r in Hhs as ->.
    unfold flattenRequest_in, flatten_query_header, flatten_query_entry.
    cbn [fold_left Fixtures.req_get Body String.eqb fst snd flattenSlice of_flat].
    change (query_key "aaa") with "query_aaa". by rewrite insert_insert_ne.
  - intros m req res Hbody (qs & hs & Hqs & Hhs & ->). unfold flattenRequest_in.
    rewrite Hbody. cbn [String.eqb fst snd]. split; [done|].
    by apply flatten_query_header_spec.
Qed.

End NormalizerProperties.

(** ** The vectors of the test file *)

Section TestVectors.

#[local] Existing Instance Fixtures.test_decoders.

Lemma ranges_singleton {V : Type} (k : string) (v : V) (l : list (string * V)) :
  ranges {[ k := v ]} l ↔ l = [(k, v)].
Proof.
  unfold ranges. rewrite map_to_list_singleton. split; [|by intros ->].
  apply Permutation_singleton_r.
Qed.

Lemma ranges_empty {V : Type} (l : list (string * V)) : ranges ∅ l ↔ l = [].
Proof.
  unfold ranges. rewrite map_to_list_empty. split; [|by intros ->].
  apply Permutation_nil_r.
Qed.

(** [TestRespondText] *)
Example test_respondText :
  status (respondText "OK" 418) = 418 ∧ body (respondText "OK" 418) = "OK".
Proof. done. Qed.

(** [TestFlattenSlice] *)
Example test_flattenSlice :
  flattenSlice ["a"] = inl "a" ∧ flattenSlice [1; 2] = inr [1; 2].
Proof. done. Qed.

(** [TestFlattenRequest], the JSON body. *)
Example test_flattenRequest_json res :
  flattenRequest ∅
    (Fixtures.req_post "application/json;charset=utf-8" Fixtures.json_hello) res →
  res = ({[ "aaa" := AString "bbb";
            "header_content_type" := AString "application/json;charset=utf-8";
            "hello" := AString "world";
            "query_aaa" := AString "bbb" ]}, None).
Proof.
  intros (qs & hs & ->%ranges_singleton & ->%ranges_singleton & ->).
  by vm_compute.
Qed.

(** [TestFlattenRequest], the form body. *)
Example test_flattenRequest_form res :
  flattenRequest ∅
    (Fixtures.req_post "application/x-www-form-urlencoded;charset=utf-8" "hello=world") res →
  res = ({[ "aaa" := AString "bbb";
            "header_content_type" :=
              AString "application/x-www-form-urlencoded;charset=utf-8";
            "hello" := AString "world";
            "query_aaa" := AString "bbb" ]}, None).
Proof.
  intros (qs & hs & ->%ranges_singleton & ->%ranges_singleton & ->).
  by vm_compute.
Qed.

(** [TestFlattenRequest], the text body. *)
Example test_flattenRequest_text res :
  flattenRequest ∅ (Fixtures.req_post "text/plain;charset=utf-8" "hello=world") res →
  res = ({[ "aaa" := AString "bbb";
            "header_content_type" := AString "text/plain;charset=utf-8";
            "query_aaa" := AString "bbb";
            "text" := AString "hello=world" ]}, None).
Proof.
  intros (qs & hs & ->%ranges_singleton & ->%ranges_singleton & ->).
  by vm_compute.
Qed.

(** [TestFlattenRequest], the custom content type. *)
Example test_flattenRequest_custom res :
  flattenRequest ∅ (Fixtures.req_post "application/x-custom" "hello=world") res →
  res.2 = Some UnsupportedContentType.
Proof.
  intros (qs & hs & ->%ranges_singleton & ->%ranges_singleton & ->). done.
Qed.

End TestVectors.

(** ** The properties on concrete data *)

Section Instances.

#[local] Existing Instance Fixtures.test_decoders.
#[local] Existing Instance Fixtures.test_consts.
#[local] Existing Instance Fixtures.test_mux.
#[local] Existing Instance Fixtures.test_context.

(** Two checkers, the first failing: two lines and the flag. *)
Example run_executeCheckers :
  executeCheckers [("db", Fixtures.chk_down); ("cache", Fixtures.chk_up)] tt =
    ("db: connection refused" +:+ LF +:+ "cache: OK", true) ∧
  executeCheckers (Ctx := unit) [] tt = ("OK", false).
Proof. by vm_compute. Qed.

(** Six failed readiness probes trip the default threshold of five, five do
    not; one success clears the counter. *)
Example run_probes :
  readinessFailed (probes Fixtures.test_app_ready Fixtures.six_failures) = 6 ∧
  handleAlive (probes Fixtures.test_app_ready (take 5 Fixtures.six_failures)) =
    (probes Fixtures.test_app_ready (take 5 Fixtures.six_failures),
     respondText "OK" StatusOK) ∧
  readinessFailed
    (probes Fixtures.test_app_ready
       (Fixtures.six_failures ++ [ProbeReady tt [("db", Fixtures.chk_up)]])) = 0.
Proof. by vm_compute. Qed.

(** Two requests and one permit: the first is inside the handler and holds
    the permit, the second waits before its receive. *)
Example run_schedule :
  let s := server_run (boot Fixtures.test_app_one_ready) Fixtures.test_schedule in
  active_count s = 1 ∧ held_total s = 1 ∧ available s = 0 ∧
  todo <$> threads s =
    [[AHandler "/hello" "/hello"; APerform "/hello"; ASend];
     [ARecv; AFactory (Fixtures.req_path "/hello"); AHandler "/hello" "/hello";
      APerform "/hello"; ASend]].
Proof. by vm_compute. Qed.

(** C1, as the specification words it, fails on the request of the test
    file: the map the call leaves holds a key that is neither [query_aaa] nor
    the key of a header (the request has none), the bare key [aaa]. *)
Lemma flattenRequest_get_not_query_only :
  ¬ (∀ res, flattenRequest ∅ Fixtures.req_get res →
       ∀ key, key ∈ dom res.1 →
         key = "query_aaa" ∨
         ∃ h, h ∈ dom (Header Fixtures.req_get) ∧ key = header_key h).
Proof.
  intros Hspec.
  assert (Hres : flattenRequest ∅ Fixtures.req_get
            (flattenRequest_in [("aaa", ["bbb"])] [] ∅ Fixtures.req_get)).
  { exists [("aaa", ["bbb"])], [].
    split; [|split]; [vm_compute; reflexivity..|reflexivity]. }
  destruct (Hspec _ Hres "aaa") as [E|(h & Hh & _)].
  - apply elem_of_dom. exists (AString "bbb"). by vm_compute.
  - discriminate E.
  - by apply elem_of_dom in Hh as [vs Hvs].
Qed.

Lemma flattenRequest_query_keys_witness :
  flattenRequest ∅ Fixtures.req_get
    (flattenRequest_in [("aaa", ["bbb"])] [] ∅ Fixtures.req_get) ∧
  flattenRequest_in [("aaa", ["bbb"])] [] ∅ Fixtures.req_get =
    ({[ "aaa" := AString "bbb"; "query_aaa" := AString "bbb" ]}, None).
Proof.
  assert (Hres : flattenRequest ∅ Fixtures.req_get
            (flattenRequest_in [("aaa", ["bbb"])] [] ∅ Fixtures.req_get)).
  { exists [("aaa", ["bbb"])], [].
    split; [|split]; [vm_compute; reflexivity..|reflexivity]. }
  split; [exact Hres|]. exact (proj1 (flattenRequest_query_keys (Ctx := unit)) _ Hres).
Defined.

Lemma readiness_cascade_witness :
  New Fixtures.test_factory [] = Some Fixtures.test_app ∧
  setup Fixtures.test_app Fixtures.test_regs = Ok Fixtures.test_app_ready ∧
  Z.of_nat (length Fixtures.six_failures) < 2 ^ 63 - 1 ∧
  (handleAlive (probes Fixtures.test_app_ready Fixtures.six_failures)).2 =
    respondText "CASCADED" StatusInternalServerError.
Proof.
  split; [reflexivity|]. split; [reflexivity|]. split; [reflexivity|].
  apply (readiness_cascade Fixtures.test_factory [] Fixtures.test_regs
           Fixtures.six_failures Fixtures.test_app Fixtures.test_app_ready);
    [reflexivity..|].
  vm_compute. split; reflexivity.
Defined.

Lemma flattenRequest_unsupported_witness :
  Body (Fixtures.req_post "application/x-custom" "hello=world") ≠ "" ∧
  unrecognized_content_type (Fixtures.req_post "application/x-custom" "hello=world") ∧
  ∃ res, flattenRequest ∅ (Fixtures.req_post "application/x-custom" "hello=world") res.
Proof.
  split; [discriminate|]. split; [by vm_compute|].
  apply (flattenRequest_unsupported ∅
           (Fixtures.req_post "application/x-custom" "hello=world"));
    [discriminate | by vm_compute].
Defined.

Lemma flattenSlice_scalar_or_sequence_witness :
  (1 < length ["a"; "b"])%nat ∧ flattenSlice ["a"; "b"] = inr ["a"; "b"].
Proof.
  split; [simpl; lia|].
  apply (proj1 (proj2 (flattenSlice_scalar_or_sequence ["a"; "b"] ∅ "k" []))).
  simpl. lia.
Defined.

Lemma executeCheckers_report_witness :
  ranges (checkers Fixtures.test_app_ready) [("db", Fixtures.chk_down)] ∧
  (executeCheckers [("db", Fixtures.chk_down)] tt).1 ≠ "".
Proof.
  assert (Hr : ranges (checkers Fixtures.test_app_ready) [("db", Fixtures.chk_down)]).
  { vm_compute. reflexivity. }
  split; [exact Hr|].
  apply (executeCheckers_report Fixtures.test_app_ready tt _ Hr).
Defined.

Lemma admission_bound_witness :
  New Fixtures.test_factory [Fixtures.with_concurrency 1] = Some Fixtures.test_app_one ∧
  setup Fixtures.test_app_one Fixtures.test_regs = Ok Fixtures.test_app_one_ready ∧
  0 < concurrency (opts Fixtures.test_app_one) ∧
  active_count (server_run (boot Fixtures.test_app_one_ready) Fixtures.test_schedule) ≤ 1.
Proof.
  split; [reflexivity|]. split; [reflexivity|]. split; [reflexivity|].
  apply (admission_bound Fixtures.test_factory [Fixtures.with_concurrency 1]
           Fixtures.test_regs Fixtures.test_schedule Fixtures.test_app_one
           Fixtures.test_app_one_ready);
    reflexivity.
Defined.

Lemma construction_pool_witness :
  ∃ a0, New Fixtures.test_factory [Fixtures.with_concurrency 0] = Some a0 ∧
        concurrency (opts a0) ≤ 0 ∧ cc a0 = None.
Proof.
  destruct (construction_pool Fixtures.test_factory [Fixtures.with_concurrency 0]
              Fixtures.test_regs) as (a0 & HNew & Hopts & _ & Hunb).
  exists a0. split; [exact HNew|].
  assert (Hc : concurrency (opts a0) ≤ 0) by (rewrite Hopts; vm_compute; discriminate).
  split; [exact Hc|]. exact (proj1 (Hunb Hc)).
Defined.

Lemma diagnostics_bypass_witness :
  String.prefix DebugPathPrefix (URL_Path (Fixtures.req_path "/debug/alive")) = true ∧
  ServeHTTP Fixtures.test_app_one (Fixtures.req_path "/debug/alive") =
    debug_ServeHTTP (T := string) (Fixtures.req_path "/debug/alive").
Proof.
  split; [reflexivity|].
  apply (diagnostics_bypass Fixtures.test_app_one (Fixtures.req_path "/debug/alive")).
  reflexivity.
Defined.

Lemma dispatch_finalizes_witness :
  HandleFunc "/hello" Fixtures.fn_panics Fixtures.test_app_one =
    Ok (set_mux Fixtures.test_app_one {[ "/hello" := Fixtures.fn_panics ]}) ∧
  h_ServeHTTP (set_mux Fixtures.test_app_one {[ "/hello" := Fixtures.fn_panics ]})
              (Fixtures.req_path "/hello") =
    ([AFactory (Fixtures.req_path "/hello"); AHandler "/hello" "/hello";
      APerform "/hello"], Panic "boom") ∧
  server_run
    {| shared := set_mux Fixtures.test_app_one {[ "/hello" := Fixtures.fn_panics ]};
       threads := [] |}
    (Accept (Fixtures.req_path "/hello") :: replicate 5 (Run 0%nat [])) =
    {| shared := set_mux Fixtures.test_app_one {[ "/hello" := Fixtures.fn_panics ]};
       threads := [{| todo := []; held := 0; written := None |}] |}.
Proof.
  assert (Hreg : HandleFunc "/hello" Fixtures.fn_panics Fixtures.test_app_one =
    Ok (set_mux Fixtures.test_app_one {[ "/hello" := Fixtures.fn_panics ]}))
    by reflexivity.
  split; [exact Hreg|].
  destruct (dispatch_finalizes Fixtures.test_app_one _ "/hello" Fixtures.fn_panics
              (Fixtures.req_path "/hello") "/hello" Hreg)
    as (Hh & _ & Hs); [by vm_compute | reflexivity |].
  split; [exact Hh|].
  destruct (Hs eq_refl _ eq_refl) as [_ Hrun].
  apply (Hrun ltac:(simpl; lia) [] []).
Defined.

Lemma liveness_frame_witness :
  probes Fixtures.test_app (replicate 3 ProbeAlive) = Fixtures.test_app.
Proof. apply (liveness_frame Fixtures.test_app). Defined.

End Instances.

(** * Further properties of [app.go] *)

(** ** The registry and the readiness handler *)

Section RegistryFacts.

Context {Ctx : Type} {T : Type}.
Implicit Types (ctx : Ctx) (visit : list (string * CheckerFunc Ctx)) (a : app Ctx T).

Lemma ranges_lookup {V : Type} (M : gmap string V) (l : list (string * V)) k v :
  ranges M l → (k, v) ∈ l ↔ M !! k = Some v.
Proof. unfold ranges. intros ->. apply elem_of_map_to_list. Qed.

Lemma executeCheckers_failed_iff a ctx visit :
  ranges (checkers a) visit →
  (executeCheckers visit ctx).2 = true ↔
  ∃ name fn e, checkers a !! name = Some fn ∧ fn ctx = Some e.
Proof.
  intros Hv. rewrite executeCheckers_eq. cbn [snd]. rewrite checker_fails_exists.
  split; intros (name & fn & e & H1 & H2); exists name, fn, e;
    (split; [|done]); by apply (ranges_lookup (checkers a) visit).
Qed.

(** X1.  The order in which [range] yields the registry changes neither the
    flag nor the lines of the report, only the order of the lines. *)
Theorem executeCheckers_order a ctx visit1 visit2 :
  ranges (checkers a) visit1 → ranges (checkers a) visit2 →
  (executeCheckers visit1 ctx).2 = (executeCheckers visit2 ctx).2 ∧
  map (report_line ctx) visit1 ≡ₚ map (report_line ctx) visit2 ∧
  String.length (executeCheckers visit1 ctx).1 =
    String.length (executeCheckers visit2 ctx).1.
Proof.
  intros H1 H2.
  assert (Hp : visit1 ≡ₚ visit2) by (unfold ranges in *; by rewrite H1, H2).
  split; [|split].
  - destruct (executeCheckers visit2 ctx).2 eqn:E2.
    + apply (executeCheckers_failed_iff a) in E2; [|done].
      by apply (executeCheckers_failed_iff a).
    + destruct (executeCheckers visit1 ctx).2 eqn:E1; [|done].
      apply (executeCheckers_failed_iff a) in E1; [|done].
      apply (executeCheckers_failed_iff a ctx visit2) in E1; [|done]. congruence.
  - by apply Permutation_map.
  - rewrite !executeCheckers_eq. cbn [fst].
    assert (Hlen : ∀ (ls : list string) (l : string),
      String.length (String.concat LF (l :: ls)) =
        (String.length l + foldr (λ x n, S (String.length x + n)) 0%nat ls)%nat).
    { induction ls as [|l' ls IH]; intros l.
      - cbn. lia.
      - rewrite concat_cons2, !str_app_length, IH. cbn. lia. }
    assert (Hsum : ∀ ls1 ls2 : list string, ls1 ≡ₚ ls2 →
      foldr (λ x n, S (String.length x + n)) 0%nat ls1 =
      foldr (λ x n, S (String.length x + n)) 0%nat ls2).
    { induction 1; cbn; lia. }
    assert (Hall : ∀ visit, visit ≠ [] →
      S (String.length (String.concat LF (map (report_line ctx) visit))) =
      foldr (λ x n, S (String.length x + n)) 0%nat (map (report_line ctx) visit)).
    { intros [|kfn visit] Hne; [done|]. cbn [map]. rewrite Hlen. cbn. lia. }
    destruct visit1 as [|k1 v1], visit2 as [|k2 v2]; [done| | |].
    + by apply Permutation_nil_cons in Hp.
    + symmetry in Hp. by apply Permutation_nil_cons in Hp.
    + apply Nat.succ_inj. rewrite !Hall by done.
      by apply Hsum, Permutation_map.
Qed.

(** X2.  [CheckFunc] replaces the checker registered under the name: the
    evaluation that follows reports the new checker under the name, fails
    exactly when the new checker or a checker of another name fails (the
    replaced one is not run), and has one line more only if the name was
    new. *)
Theorem CheckFunc_replaces name (fn : CheckerFunc Ctx) a ctx visit :
  ranges (checkers (CheckFunc name fn a)) visit →
  (name, fn) ∈ visit ∧
  (∀ fn', (name, fn') ∈ visit → fn' = fn) ∧
  ((executeCheckers visit ctx).2 = true ↔
     is_Some (fn ctx) ∨
     ∃ name' fn' e, name' ≠ name ∧ checkers a !! name' = Some fn' ∧ fn' ctx = Some e) ∧
  length visit =
    (if decide (is_Some (checkers a !! name)) then size (checkers a)
     else S (size (checkers a))).
Proof.
  intros Hv. cbn [CheckFunc checkers set_checkers] in Hv.
  assert (Hin : ∀ k f, (k, f) ∈ visit ↔ <[name := fn]> (checkers a) !! k = Some f).
  { intros k f. by apply ranges_lookup. }
  split; [|split; [|split]].
  - apply Hin. apply lookup_insert_eq.
  - intros fn' Hfn'. apply Hin in Hfn'. rewrite lookup_insert_eq in Hfn'. congruence.
  - rewrite executeCheckers_eq. cbn [snd]. rewrite checker_fails_exists. split.
    + intros (k & f & e & Hk & He). apply Hin in Hk.
      destruct (decide (k = name)) as [->|Hne].
      * rewrite lookup_insert_eq in Hk. injection Hk as <-. left. by exists e.
      * rewrite lookup_insert_ne in Hk by done. right. by exists k, f, e.
    + intros [[e He]|(k & f & e & Hne & Hk & He)].
      * exists name, fn, e. split; [|done]. apply Hin, lookup_insert_eq.
      * exists k, f, e. split; [|done]. apply Hin. by rewrite lookup_insert_ne.
  - unfold ranges in Hv. rewrite Hv, length_map_to_list.
    destruct (decide (is_Some (checkers a !! name))) as [[f Hf]|Hn].
    + rewrite <- (insert_delete_id (checkers a) name f) at 2 by done.
      rewrite <- (insert_delete_eq (checkers a)).
      rewrite !map_size_insert_None by apply lookup_delete_eq. done.
    + apply map_size_insert_None. by apply eq_None_not_Some.
Qed.

(** X3.  The readiness handler answers 500 exactly when a registered checker
    returns an error and 200 otherwise, always with the report as its body;
    with an empty registry it answers 200 ["OK"].  It changes the counter
    and nothing else of the application. *)
Theorem handleReady_response a ctx visit :
  ranges (checkers a) visit →
  (status (handleReady ctx visit a).2 = StatusInternalServerError ↔
     ∃ name fn e, checkers a !! name = Some fn ∧ fn ctx = Some e) ∧
  (status (handleReady ctx visit a).2 = StatusOK ↔
     ∀ name fn, checkers a !! name = Some fn → fn ctx = None) ∧
  body (handleReady ctx visit a).2 = (executeCheckers visit ctx).1 ∧
  (checkers a = ∅ → (handleReady ctx visit a).2 = respondText "OK" StatusOK) ∧
  set_readinessFailed (handleReady ctx visit a).1 (readinessFailed a) = a.
Proof.
  intros Hv. pose proof (executeCheckers_failed_iff a ctx visit Hv) as Hf.
  rewrite handleReady_eq.
  destruct (executeCheckers visit ctx).2 eqn:E; cbn [fst snd status body respondText].
  - split; [|split; [|split; [|split]]].
    + split; [intros _; by apply Hf|done].
    + split; [done|]. intros Hall. destruct Hf as [(name & fn & e & H1 & H2) _]; [done|].
      rewrite (Hall name fn H1) in H2. done.
    + done.
    + intros Hemp. destruct Hf as [(name & fn & e & H1 & H2) _]; [done|].
      by rewrite Hemp, lookup_empty in H1.
    + by destruct a.
  - split; [|split; [|split; [|split]]].
    + split; [done|]. intros H. by apply Hf in H.
    + split; [|done]. intros _ name fn Hn. destruct (fn ctx) as [e|] eqn:He; [|done].
      assert (false = true); [|done]. apply Hf. by exists name, fn, e.
    + done.
    + intros Hemp. f_equal. rewrite executeCheckers_eq. cbn [fst].
      unfold ranges in Hv. rewrite Hemp, map_to_list_empty in Hv.
      by apply Permutation_nil_r in Hv as ->.
    + by destruct a.
Qed.

End RegistryFacts.

(** ** The counter over a run of probes *)

Section CounterFacts.

Context {Ctx : Type} {T : Type}.
Implicit Types (a : app Ctx T) (ps : list (probe Ctx)).

Lemma probes_app a ps1 ps2 : probes a (ps1 ++ ps2) = probes (probes a ps1) ps2.
Proof. unfold probes. apply fold_left_app. Qed.

Lemma failures_cons (p : probe Ctx) ps :
  failures (p :: ps) = (if probe_fails p then 1 else 0) + failures ps.
Proof.
  unfold failures. cbn [List.filter]. destruct (probe_fails p); cbn [length]; lia.
Qed.

Lemma failures_bounds ps : 0 ≤ failures ps ≤ Z.of_nat (length ps).
Proof.
  induction ps as [|p ps IH]; [done|]. rewrite failures_cons. cbn [length].
  destruct (probe_fails p); lia.
Qed.

Lemma probes_failures a ps :
  Forall (λ p, probe_passes p = false) ps →
  0 ≤ readinessFailed a →
  readinessFailed a + Z.of_nat (length ps) < 2 ^ 63 →
  readinessFailed (probes a ps) = readinessFailed a + failures ps.
Proof.
  unfold probes. revert a. induction ps as [|p ps IH]; intros a Hall Hnn Hlen.
  - unfold failures. cbn. lia.
  - apply Forall_cons in Hall as [Hp Hall]. cbn [length] in Hlen.
    cbn [fold_left]. rewrite failures_cons.
    destruct p as [|ctx visit]; cbn [probe_step probe_fails probe_passes] in *.
    + rewrite handleAlive_eq. cbn [fst]. rewrite IH; [lia|done|lia|lia].
    + apply negb_false_iff in Hp. rewrite handleReady_eq, Hp. cbn [fst].
      rewrite IH; cbn [readinessFailed set_readinessFailed]; try done;
        rewrite wrap64_id; lia.
Qed.

(** X4.  While no readiness evaluation succeeds, the counter grows by the
    number of failed evaluations, liveness probes in between not counting,
    and is never negative; the counter must stay below the maximum of
    [int64]. *)
Theorem failures_accumulate a ps :
  Forall (λ p, probe_passes p = false) ps →
  0 ≤ readinessFailed a →
  readinessFailed a + Z.of_nat (length ps) < 2 ^ 63 →
  readinessFailed (probes a ps) = readinessFailed a + failures ps ∧
  0 ≤ readinessFailed (probes a ps) ≤ readinessFailed a + Z.of_nat (length ps).
Proof.
  intros Hall Hnn Hlen. rewrite probes_failures by done.
  pose proof (failures_bounds ps). lia.
Qed.

(** X5.  Starting from a counter at zero, with a positive threshold, liveness
    answers ["CASCADED"] exactly when more failed evaluations than the
    threshold have followed without a success; and one successful
    evaluation brings liveness back to 200 ["OK"] from any state. *)
Theorem cascade_threshold a ps :
  readinessFailed a = 0 →
  0 < readinessCascade (opts a) →
  Forall (λ p, probe_passes p = false) ps →
  Z.of_nat (length ps) < 2 ^ 63 →
  ((handleAlive (probes a ps)).2 = respondText "CASCADED" StatusInternalServerError ↔
     readinessCascade (opts a) < failures ps) ∧
  ((handleAlive (probes a ps)).2 = respondText "OK" StatusOK ↔
     failures ps ≤ readinessCascade (opts a)) ∧
  ∀ a' ctx visit, (executeCheckers visit ctx).2 = false →
    (handleAlive (handleReady ctx visit a').1).2 = respondText "OK" StatusOK.
Proof.
  intros Hz Hrc Hall Hlen.
  assert (Hc : readinessFailed (probes a ps) = failures ps).
  { rewrite probes_failures; [lia|done|lia|lia]. }
  rewrite handleAlive_eq, probes_opts, Hc. cbn [snd].
  apply Z.ltb_lt in Hrc as Hb. rewrite Hb. cbn [andb].
  split; [|split].
  - destruct (Z.ltb_spec (readinessCascade (opts a)) (failures ps)); split;
      intros ?; first [done | lia].
  - destruct (Z.ltb_spec (readinessCascade (opts a)) (failures ps)); split;
      intros ?; first [done | lia].
  - intros a' ctx visit Hf. rewrite handleReady_eq, Hf, handleAlive_eq.
    cbn [fst snd opts readinessFailed set_readinessFailed].
    destruct (Z.ltb_spec 0 (readinessCascade (opts a')));
      destruct (Z.ltb_spec (readinessCascade (opts a')) 0); cbn [andb]; first [done | lia].
Qed.

End CounterFacts.

Section CounterEdge.

Context {Ctx : Type} {T : Type}.
Implicit Types (a : app Ctx T).

(** X6.  [atomic.AddInt64] does not saturate: at the maximum of [int64] one
    more failed evaluation wraps the counter to the minimum, and liveness
    then answers 200 ["OK"] whatever the threshold. *)
Theorem counter_wraps a ctx visit :
  readinessFailed a = 2 ^ 63 - 1 →
  (executeCheckers visit ctx).2 = true →
  readinessFailed (handleReady ctx visit a).1 = - 2 ^ 63 ∧
  (0 ≤ readinessCascade (opts a) →
   (handleAlive (handleReady ctx visit a).1).2 = respondText "OK" StatusOK).
Proof.
  intros Hmax Hf. rewrite handleReady_eq, Hf. cbn [fst].
  assert (Hw : wrap64 (readinessFailed a + 1) = - 2 ^ 63) by by rewrite Hmax.
  split; [done|]. intros Hrc. rewrite handleAlive_eq.
  cbn [snd opts readinessFailed set_readinessFailed]. rewrite Hw.
  destruct (Z.ltb_spec 0 (readinessCascade (opts a)));
    destruct (Z.ltb_spec (readinessCascade (opts a)) (- 2 ^ 63)); cbn [andb];
    first [done | lia].
Qed.

(** X7.  [New] applies the options from left to right to the defaults and
    then fills the pool: when the resulting capacity [n] is positive the
    channel has capacity [n] and holds [n] tokens.  The application starts
    with an empty registry, no route, the counter at zero, and liveness
    answering 200 ["OK"]. *)
Theorem New_fresh (cf : ContextFactory Ctx T) (os1 os2 : list Option) :
  ∃ a0, New cf (os1 ++ os2) = Some a0 ∧
    opts a0 = apply_options os2 (apply_options os1 default_options) ∧
    (0 < concurrency (opts a0) →
       cc a0 = Some {| chan_cap := concurrency (opts a0);
                       chan_len := concurrency (opts a0) |}) ∧
    contextFactory a0 = cf ∧ checkers a0 = ∅ ∧ mux a0 = ∅ ∧
    readinessFailed a0 = 0 ∧
    (handleAlive a0).2 = respondText "OK" StatusOK.
Proof.
  rewrite New_eq. eexists. split; [done|]. cbn [opts cc checkers mux readinessFailed].
  split; [unfold apply_options; by rewrite fold_left_app|].
  split; [by intros ->%Z.ltb_lt|]. repeat (split; [done|]).
  rewrite handleAlive_eq. cbn [snd opts readinessFailed].
  destruct (Z.ltb_spec 0 (readinessCascade (apply_options (os1 ++ os2) default_options)));
    destruct (Z.ltb_spec (readinessCascade (apply_options (os1 ++ os2) default_options)) 0);
    cbn [andb]; first [done | lia].
Qed.

End CounterEdge.

(** ** Panics and routes *)

Section DispatchFacts.

Context {Ctx : Type} {T : Type} `{!Context T} `{!Consts} `{!ServeMux}.
Implicit Types (a : app Ctx T) (req : Request Ctx) (act : action Ctx T).

(** X8.  When the factory panics, neither the handler nor [Perform] is
    called and the panic leaves [ServeHTTP]; behind the admission control
    the deferred send still follows, so the permit goes back. *)
Theorem factory_panic a pattern (fn : HandlerFunc T) req v :
  serveMux_match (dom (mux a)) (URL_Path req) = Some pattern →
  mux a !! pattern = Some fn →
  contextFactory a req = Panic v →
  String.prefix DebugPathPrefix (URL_Path req) = false →
  h_ServeHTTP a req = ([AFactory req], Panic v) ∧
  (ServeHTTP a req).2 = Panic v ∧
  (ServeHTTP a req).1 =
    match cc a with
    | Some _ => [ARecv; AFactory req; ASend]
    | None => [AFactory req]
    end.
Proof.
  intros Hm Hfn Hc Hp.
  assert (Hh : h_ServeHTTP a req = ([AFactory req], Panic v)).
  { unfold h_ServeHTTP. rewrite Hm, Hfn, HandleFunc_closure_eq. by rewrite Hc. }
  split; [done|]. destruct (cc a) as [ch|] eqn:Hcc.
  - rewrite (ServeHTTP_gated a req ch) by done. by rewrite Hh.
  - rewrite ServeHTTP_ungated by done. by rewrite Hh.
Qed.

(** X9.  [ServeHTTP] recovers nothing: outside the diagnostics prefix it ends
    as [a.h.ServeHTTP] ends.  For a routed request whose factory returns,
    that is the panic of [Perform] if [Perform] panics, and otherwise the
    outcome of the handler, a panic included. *)
Theorem panic_propagates a pattern (fn : HandlerFunc T) req c :
  serveMux_match (dom (mux a)) (URL_Path req) = Some pattern →
  mux a !! pattern = Some fn →
  contextFactory a req = Ok c →
  String.prefix DebugPathPrefix (URL_Path req) = false →
  (ServeHTTP a req).2 = (h_ServeHTTP a req).2 ∧
  (∀ v, Perform c = Panic v → (ServeHTTP a req).2 = Panic v) ∧
  (Perform c = Ok tt → (ServeHTTP a req).2 = fn c) ∧
  List.filter is_perform (ServeHTTP a req).1 = [APerform c].
Proof.
  intros Hm Hfn Hc Hp.
  assert (Hh : h_ServeHTTP a req =
    ([AFactory req; AHandler pattern c; APerform c],
     match Perform c with Panic v => Panic v | Ok _ => fn c end)).
  { unfold h_ServeHTTP. rewrite Hm, Hfn, HandleFunc_closure_eq. by rewrite Hc. }
  assert (Hs : ServeHTTP a req =
    (match cc a with
     | Some _ => [ARecv; AFactory req; AHandler pattern c; APerform c; ASend]
     | None => [AFactory req; AHandler pattern c; APerform c]
     end, match Perform c with Panic v => Panic v | Ok _ => fn c end)).
  { destruct (cc a) as [ch|] eqn:Hcc.
    - rewrite (ServeHTTP_gated a req ch) by done. by rewrite Hh.
    - rewrite ServeHTTP_ungated by done. by rewrite Hh. }
  rewrite Hs, Hh. cbn [fst snd]. split; [done|]. split; [|split].
  - by intros v ->.
  - by intros ->.
  - by destruct (cc a).
Qed.

(** X10.  The prefix test comes first: a request under the diagnostics prefix
    never reaches the factory, a handler or [Perform], whatever routes are
    registered, a route for its very path included; and a request outside
    the prefix never runs a diagnostics handler, so none of its steps
    changes the counter or writes a diagnostics response. *)
Theorem prefix_separates a req :
  (String.prefix DebugPathPrefix (URL_Path req) = true →
     Forall (λ act, is_inner act = false) (ServeHTTP a req).1 ∧
     (ServeHTTP a req).2 = Ok tt) ∧
  (String.prefix DebugPathPrefix (URL_Path req) = false →
     Forall (λ act, is_debug act = false ∧
                    ∀ visit a' a'' r, exec visit act a' = Some (a'', r) →
                      readinessFailed a'' = readinessFailed a' ∧ r = None)
            (ServeHTTP a req).1).
Proof.
  split; intros Hp.
  - rewrite ServeHTTP_debug by done.
    destruct (debug_ServeHTTP_single (T:=T) req) as (act & -> & Hd).
    split; [|done]. constructor; [by destruct act|constructor].
  - assert (Hin : Forall (λ act, is_debug act = false ∧
        ∀ visit a' a'' r, exec visit act a' = Some (a'', r) →
          readinessFailed a'' = readinessFailed a' ∧ r = None) (h_ServeHTTP a req).1).
    { eapply Forall_impl; [apply h_ServeHTTP_inner|]. intros act Hi.
      split; [by destruct act|]. intros visit a' a'' r.
      destruct act; try done; cbn [exec]; by intros [= <- <-]. }
    assert (Hch : ∀ act0 : action Ctx T, permit_delta act0 ≠ 0 →
      is_debug act0 = false ∧
      ∀ visit a' a'' r, exec visit act0 a' = Some (a'', r) →
        readinessFailed a'' = readinessFailed a' ∧ r = None).
    { intros act0 Hd. split; [by destruct act0|]. intros visit a' a'' r.
      destruct act0; try done; cbn [exec]; destruct (cc a') as [c|]; try done.
      - destruct (chan_recv c); [|done]. by intros [= <- <-].
      - destruct (chan_send c); [|done]. by intros [= <- <-]. }
    destruct (cc a) as [ch|] eqn:Hcc.
    + rewrite (ServeHTTP_gated a req ch) by done. cbn [fst].
      constructor; [by apply Hch|]. apply Forall_app. split; [done|].
      constructor; [by apply Hch|constructor].
    + by rewrite ServeHTTP_ungated.
Qed.

End DispatchFacts.

(** ** Progress of the admission control *)

Section Progress.

Context {Ctx : Type} {T : Type} `{!Context T} `{!Consts} `{!ServeMux}.
Implicit Types (a : app Ctx T) (req : Request Ctx) (act : action Ctx T)
  (s : server Ctx T) (t : thread Ctx T) (ts : list (thread Ctx T))
  (visit : list (string * CheckerFunc Ctx)).

(** The server started by [New] and a setup satisfies the invariant of its
    pool, and so does every state it reaches. *)
Lemma reach_invariant (cf : ContextFactory Ctx T) (os : list Option)
    (regs : list (registration Ctx T)) (mvs : list (sched Ctx)) a0 a1 :
  New cf os = Some a0 →
  setup a0 regs = Ok a1 →
  0 < concurrency (opts a0) →
  pool_invariant (concurrency (opts a0)) (server_run (boot a1) mvs).
Proof.
  intros HNew Hsetup Hpos. apply server_run_invariant.
  unfold boot, pool_invariant, available. cbn [shared threads].
  destruct (setup_frame _ _ _ Hsetup) as (_ & -> & _).
  rewrite New_eq in HNew. injection HNew as <-. cbn [opts cc] in *.
  apply Z.ltb_lt in Hpos as Hb. rewrite Hb.
  split; [eexists; split; [done|]; cbn; lia|]. split; [done|].
  unfold held_total. cbn. lia.
Qed.

Lemma gated_shape_bounds t :
  gated_shape t → 0 ≤ held t ≤ 1 ∧ (finished t = true → held t = 0).
Proof.
  unfold finished. intros [[Hz _]|[Ho (mid & _ & ->)]]; [lia|].
  split; [lia|]. by destruct mid.
Qed.

Lemma held_le_total a ts tid t :
  Forall gated_shape ts → ts !! tid = Some t →
  held t ≤ held_total {| shared := a; threads := ts |}.
Proof.
  unfold held_total. cbn [threads]. intros Hsh. revert tid.
  induction Hsh as [|t0 ts Ht0 Hsh IH]; intros [|tid] Hl; try done.
  - injection Hl as ->. cbn [foldr].
    assert (0 ≤ foldr (λ t n, held t + n) 0 ts); [|lia].
    clear -Hsh. induction Hsh as [|t1 ts Ht1 _ IH1]; cbn [foldr]; [done|].
    apply gated_shape_bounds in Ht1. lia.
  - change ((t0 :: ts) !! S tid) with (ts !! tid) in Hl.
    cbn [foldr]. specialize (IH tid Hl). apply gated_shape_bounds in Ht0. lia.
Qed.

Lemma holder_exists a ts :
  Forall gated_shape ts → 0 < held_total {| shared := a; threads := ts |} →
  ∃ tid t, ts !! tid = Some t ∧ held t = 1.
Proof.
  unfold held_total. cbn [threads].
  induction 1 as [|t0 ts Ht0 Hsh IH]; cbn [foldr]; intros Hpos; [lia|].
  apply gated_shape_bounds in Ht0 as [Hb _].
  destruct (decide (held t0 = 1)) as [E|E].
  - by exists 0%nat, t0.
  - destruct IH as (tid & t & Hl & Ht); [lia|]. by exists (S tid), t.
Qed.

(** A request that holds a permit can perform its next step. *)
Lemma holder_enabled C s tid t :
  pool_invariant C s → threads s !! tid = Some t → held t = 1 →
  enabled s tid = true ∧ finished t = false.
Proof.
  destruct s as [a ts]. intros ((c & Hc & Hcap & Hlen) & Hsh & Htot) Hl Hheld.
  unfold available in Htot. cbn [shared threads] in *. rewrite Hc in Htot.
  pose proof (held_le_total a ts tid t Hsh Hl) as Hle.
  pose proof (Forall_lookup_1 _ _ _ _ Hsh Hl) as [[Hz _]|[_ (mid & Hmid & Htodo)]]; [lia|].
  unfold enabled, finished. cbn [shared threads]. rewrite Hl, Htodo.
  destruct mid as [|m mid]; cbn [List.app].
  - split; [|done]. cbn [exec]. rewrite Hc, chan_send_Some by lia. done.
  - split; [|done]. apply Forall_cons in Hmid as [Hm _].
    by destruct (exec_no_wait [] m a (is_inner_delta _ Hm)) as (? & ? & -> & _).
Qed.

(** X11.  The admission control cannot deadlock: in every state the server
    reaches, if a request has steps left then some request can perform its
    next step. *)
Theorem no_deadlock (cf : ContextFactory Ctx T) (os : list Option)
    (regs : list (registration Ctx T)) (mvs : list (sched Ctx)) a0 a1 tid t :
  New cf os = Some a0 →
  setup a0 regs = Ok a1 →
  0 < concurrency (opts a0) →
  threads (server_run (boot a1) mvs) !! tid = Some t →
  finished t = false →
  ∃ tid', enabled (server_run (boot a1) mvs) tid' = true.
Proof.
  intros HNew Hsetup Hpos Hl Hfin.
  pose proof (reach_invariant cf os regs mvs a0 a1 HNew Hsetup Hpos) as Hinv.
  set (s := server_run (boot a1) mvs) in *.
  destruct (decide (held t = 1)) as [E|E].
  { exists tid. by apply (holder_enabled (concurrency (opts a0)) s tid t). }
  pose proof Hinv as ((c & Hc & Hcap & Hlen) & Hsh & Htot).
  pose proof (Forall_lookup_1 _ _ _ _ Hsh Hl) as [[Hz Ht]|[Ho _]]; [|lia].
  destruct Ht as [Ht|[(act & Ht & Hd)|(mid & _ & Ht)]].
  - unfold finished in Hfin. by rewrite Ht in Hfin.
  - exists tid. unfold enabled. rewrite Hl, Ht.
    by destruct (exec_no_wait [] act (shared s) (is_debug_delta _ Hd)) as (? & ? & -> & _).
  - destruct (Z.ltb_spec 0 (chan_len c)) as [Hav|Hav].
    + exists tid. unfold enabled. rewrite Hl, Ht. cbn [exec].
      rewrite Hc, chan_recv_Some by done. done.
    + unfold available in Htot. rewrite Hc in Htot.
      assert (Hs : {| shared := shared s; threads := threads s |} = s) by by destruct s.
      destruct (holder_exists (shared s) (threads s) Hsh) as (tid' & t' & Hl' & Ht').
      { rewrite Hs. lia. }
      exists tid'. by apply (holder_enabled (concurrency (opts a0)) s tid' t').
Qed.

(** X12.  A request that has received a permit never waits again: in every
    state the server reaches it can perform its next step, the deferred send
    included, until it has finished. *)
Theorem admitted_never_waits (cf : ContextFactory Ctx T) (os : list Option)
    (regs : list (registration Ctx T)) (mvs : list (sched Ctx)) a0 a1 tid t :
  New cf os = Some a0 →
  setup a0 regs = Ok a1 →
  0 < concurrency (opts a0) →
  threads (server_run (boot a1) mvs) !! tid = Some t →
  held t = 1 →
  enabled (server_run (boot a1) mvs) tid = true ∧ finished t = false.
Proof.
  intros HNew Hsetup Hpos Hl Hheld.
  eapply holder_enabled; [|done..]. by eapply reach_invariant.
Qed.

(** X13.  Permits are accounted for: in every state the server reaches, a
    request holds no permit or one, a finished request holds none, and when
    all requests have finished the pool holds all its permits again. *)
Theorem permits_return (cf : ContextFactory Ctx T) (os : list Option)
    (regs : list (registration Ctx T)) (mvs : list (sched Ctx)) a0 a1 :
  New cf os = Some a0 →
  setup a0 regs = Ok a1 →
  0 < concurrency (opts a0) →
  Forall (λ t, 0 ≤ held t ≤ 1 ∧ (finished t = true → held t = 0))
         (threads (server_run (boot a1) mvs)) ∧
  (Forall (λ t, finished t = true) (threads (server_run (boot a1) mvs)) →
   available (server_run (boot a1) mvs) = concurrency (opts a0)).
Proof.
  intros HNew Hsetup Hpos.
  pose proof (reach_invariant cf os regs mvs a0 a1 HNew Hsetup Hpos)
    as (_ & Hsh & Htot).
  set (s := server_run (boot a1) mvs) in *. split.
  - eapply Forall_impl; [exact Hsh|]. intros t. apply gated_shape_bounds.
  - intros Hfin. assert (Hz : held_total s = 0); [|lia].
    unfold held_total. clear Htot.
    induction Hsh as [|t ts Ht _ IH]; cbn [foldr]; [done|].
    apply Forall_cons in Hfin as [Hf Hfin]. rewrite (IH Hfin).
    apply gated_shape_bounds in Ht as [_ Ht]. rewrite (Ht Hf). done.
Qed.

Lemma exec_inner visit act a :
  is_inner act = true → exec visit act a = Some (a, None).
Proof. by destruct act. Qed.

Lemma run_inner a ts visit (mid rest : list (action Ctx T)) n w :
  Forall (λ act, is_inner act = true) mid →
  server_run
    {| shared := a;
       threads := ts ++ [{| todo := mid ++ rest; held := n; written := w |}] |}
    (run_alone (length ts) (length mid) visit) =
  {| shared := a; threads := ts ++ [{| todo := rest; held := n; written := w |}] |}.
Proof.
  unfold server_run, run_alone.
  induction 1 as [|m mid Hm _ IH]; [done|].
  cbn [length replicate fold_left List.app].
  rewrite (server_step_last a ts visit m (mid ++ rest) n w a None)
    by by apply exec_inner.
  rewrite (is_inner_delta _ Hm), Z.add_0_r. apply IH.
Qed.

(** X14.  Any request outside the diagnostics prefix that finds a permit, or
    no pool at all, finishes after exactly the steps of [ServeHTTP], holding
    nothing, and leaves the application and the pool as it found them: no
    route, a panicking factory, a panicking handler or a panicking [Perform]
    make no difference. *)
Theorem request_completes a req ts visit :
  String.prefix DebugPathPrefix (URL_Path req) = false →
  match cc a with
  | Some ch => 0 < chan_len ch ≤ chan_cap ch
  | None => True
  end →
  server_run {| shared := a; threads := ts |}
    (Accept req :: run_alone (length ts) (length (ServeHTTP a req).1) visit) =
  {| shared := a;
     threads := ts ++ [{| todo := []; held := 0; written := None |}] |}.
Proof.
  intros Hp Hch. unfold server_run. cbn [fold_left].
  rewrite server_step_accept. cbn [shared threads].
  pose proof (h_ServeHTTP_inner a req) as Hin.
  destruct (cc a) as [ch|] eqn:Hcc.
  - rewrite (ServeHTTP_gated a req ch) by done. cbn [fst length].
    unfold run_alone. cbn [replicate fold_left].
    rewrite (server_step_last a ts visit ARecv _ 0 None
      (set_cc a (Some {| chan_cap := chan_cap ch; chan_len := chan_len ch - 1 |})) None).
    2:{ cbn [exec]. rewrite Hcc, chan_recv_Some by lia. done. }
    rewrite length_app, replicate_add. cbn [length replicate].
    rewrite fold_left_app.
    pose proof (run_inner
      (set_cc a (Some {| chan_cap := chan_cap ch; chan_len := chan_len ch - 1 |}))
      ts visit (h_ServeHTTP a req).1 [ASend]
      (0 + permit_delta (ARecv : action Ctx T)) None Hin) as Hrun.
    unfold server_run, run_alone in Hrun. rewrite Hrun. cbn [fold_left].
    rewrite (server_step_last _ ts visit ASend [] _ None (set_cc a (Some ch)) None).
    2:{ cbn [exec set_cc cc]. rewrite chan_send_Some; cbn [chan_len chan_cap]; [|lia].
        destruct ch as [cp ln]. cbn [chan_len chan_cap]. do 5 f_equal. lia. }
    cbn [permit_delta]. f_equal. unfold set_cc. rewrite <- Hcc. by destruct a.
  - rewrite ServeHTTP_ungated by done.
    pose proof (run_inner a ts visit (h_ServeHTTP a req).1 [] 0 None Hin) as Hrun.
    rewrite app_nil_r in Hrun. apply Hrun.
Qed.

End Progress.

(** ** What serving never changes *)

Section ServingFrame.

Context {Ctx : Type} {T : Type} `{!Context T} `{!Consts} `{!ServeMux}.
Implicit Types (a : app Ctx T) (s : server Ctx T)
  (visit : list (string * CheckerFunc Ctx)).

Lemma exec_frame visit (act : action Ctx T) a a' r :
  exec visit act a = Some (a', r) →
  contextFactory a' = contextFactory a ∧ opts a' = opts a ∧
  checkers a' = checkers a ∧ mux a' = mux a ∧
  chan_cap <$> cc a' = chan_cap <$> cc a.
Proof.
  destruct act; cbn [exec]; try by intros [= <- <-].
  - destruct (cc a) as [c|] eqn:Hc; [|done]. unfold chan_recv.
    destruct (0 <? chan_len c); [|done]. intros [= <- <-].
    cbn [contextFactory opts checkers mux cc set_cc]. done.
  - destruct (cc a) as [c|] eqn:Hc; [|done]. unfold chan_send.
    destruct (chan_len c <? chan_cap c); [|done]. intros [= <- <-].
    cbn [contextFactory opts checkers mux cc set_cc]. done.
  - rewrite handleAlive_eq. by intros [= <- <-].
  - rewrite handleReady_eq. destruct (executeCheckers visit ctx).2; by intros [= <- <-].
Qed.

Lemma server_step_frame s (mv : sched Ctx) :
  contextFactory (shared (server_step s mv)) = contextFactory (shared s) ∧
  opts (shared (server_step s mv)) = opts (shared s) ∧
  checkers (shared (server_step s mv)) = checkers (shared s) ∧
  mux (shared (server_step s mv)) = mux (shared s) ∧
  chan_cap <$> cc (shared (server_step s mv)) = chan_cap <$> cc (shared s) ∧
  (length (threads s) ≤ length (threads (server_step s mv)))%nat.
Proof.
  destruct mv as [req|tid visit]; cbn [server_step shared threads].
  - rewrite length_app. cbn [length]. repeat split; lia.
  - destruct (threads s !! tid) as [[[|act rest] n w]|]; try (repeat split; lia).
    destruct (exec visit act (shared s)) as [[a' r]|] eqn:He; [|repeat split; lia].
    cbn [shared threads]. rewrite length_insert.
    destruct (exec_frame _ _ _ _ _ He) as (-> & -> & -> & -> & ->). repeat split; lia.
Qed.

(** X15.  Serving requests, under any schedule, changes neither the options,
    the registry, the routes, the factory nor the capacity of the pool, and
    drops no accepted request: only the counter and the number of tokens in
    the pool move. *)
Theorem serving_frame s (mvs : list (sched Ctx)) :
  contextFactory (shared (server_run s mvs)) = contextFactory (shared s) ∧
  opts (shared (server_run s mvs)) = opts (shared s) ∧
  checkers (shared (server_run s mvs)) = checkers (shared s) ∧
  mux (shared (server_run s mvs)) = mux (shared s) ∧
  chan_cap <$> cc (shared (server_run s mvs)) = chan_cap <$> cc (shared s) ∧
  (length (threads s) ≤ length (threads (server_run s mvs)))%nat.
Proof.
  unfold server_run. revert s. induction mvs as [|mv mvs IH]; intros s; [done|].
  cbn [fold_left].
  destruct (IH (server_step s mv)) as (-> & -> & -> & -> & -> & Hlen).
  destruct (server_step_frame s mv) as (-> & -> & -> & -> & -> & Hlen').
  repeat split; lia.
Qed.

End ServingFrame.

(** ** The further properties on concrete data *)

Section FurtherInstances.

#[local] Existing Instance Fixtures.test_consts.
#[local] Existing Instance Fixtures.test_mux.
#[local] Existing Instance Fixtures.test_context.

Lemma executeCheckers_order_witness :
  ranges (checkers MoreFixtures.app_db_down)
         [("cache", Fixtures.chk_up); ("db", Fixtures.chk_down)] ∧
  ranges (checkers MoreFixtures.app_db_down)
         [("db", Fixtures.chk_down); ("cache", Fixtures.chk_up)] ∧
  (executeCheckers [("cache", Fixtures.chk_up); ("db", Fixtures.chk_down)] tt).2 =
  (executeCheckers [("db", Fixtures.chk_down); ("cache", Fixtures.chk_up)] tt).2.
Proof.
  assert (H1 : ranges (checkers MoreFixtures.app_db_down)
                 [("cache", Fixtures.chk_up); ("db", Fixtures.chk_down)]).
  { vm_compute. first [reflexivity | apply perm_swap]. }
  assert (H2 : ranges (checkers MoreFixtures.app_db_down)
                 [("db", Fixtures.chk_down); ("cache", Fixtures.chk_up)]).
  { vm_compute. first [reflexivity | apply perm_swap]. }
  split; [exact H1|]. split; [exact H2|].
  apply (executeCheckers_order MoreFixtures.app_db_down tt _ _ H1 H2).
Defined.

Lemma CheckFunc_replaces_witness :
  ranges (checkers (CheckFunc "db" Fixtures.chk_up Fixtures.test_app_ready))
         [("db", Fixtures.chk_up)] ∧
  ∀ fn', ("db", fn') ∈ [("db", Fixtures.chk_up)] → fn' = Fixtures.chk_up.
Proof.
  assert (Hr : ranges (checkers (CheckFunc "db" Fixtures.chk_up Fixtures.test_app_ready))
                 [("db", Fixtures.chk_up)]).
  { vm_compute. reflexivity. }
  split; [exact Hr|].
  apply (CheckFunc_replaces "db" Fixtures.chk_up Fixtures.test_app_ready tt _ Hr).
Defined.

Lemma handleReady_response_witness :
  ranges (checkers Fixtures.test_app_ready) [("db", Fixtures.chk_down)] ∧
  body (handleReady tt [("db", Fixtures.chk_down)] Fixtures.test_app_ready).2 =
    (executeCheckers [("db", Fixtures.chk_down)] tt).1.
Proof.
  assert (Hr : ranges (checkers Fixtures.test_app_ready) [("db", Fixtures.chk_down)]).
  { vm_compute. reflexivity. }
  split; [exact Hr|].
  apply (handleReady_response Fixtures.test_app_ready tt _ Hr).
Defined.

Lemma failures_accumulate_witness :
  Forall (λ p, probe_passes p = false) MoreFixtures.three_failures ∧
  0 ≤ readinessFailed Fixtures.test_app_ready ∧
  readinessFailed Fixtures.test_app_ready +
    Z.of_nat (length MoreFixtures.three_failures) < 2 ^ 63 ∧
  readinessFailed (probes Fixtures.test_app_ready MoreFixtures.three_failures) =
    readinessFailed Fixtures.test_app_ready + failures MoreFixtures.three_failures.
Proof.
  assert (Hall : Forall (λ p : probe unit, probe_passes p = false)
                   MoreFixtures.three_failures).
  { repeat constructor. }
  split; [exact Hall|]. split; [simpl; lia|]. split; [reflexivity|].
  apply (failures_accumulate Fixtures.test_app_ready MoreFixtures.three_failures Hall);
    [simpl; lia | reflexivity].
Defined.

Lemma cascade_threshold_witness :
  readinessFailed Fixtures.test_app_ready = 0 ∧
  0 < readinessCascade (opts Fixtures.test_app_ready) ∧
  Forall (λ p, probe_passes p = false) MoreFixtures.three_failures ∧
  Z.of_nat (length MoreFixtures.three_failures) < 2 ^ 63 ∧
  (handleAlive (probes Fixtures.test_app_ready MoreFixtures.three_failures)).2 =
    respondText "OK" StatusOK.
Proof.
  assert (Hall : Forall (λ p : probe unit, probe_passes p = false)
                   MoreFixtures.three_failures).
  { repeat constructor. }
  split; [reflexivity|]. split; [reflexivity|]. split; [exact Hall|].
  split; [reflexivity|].
  apply (proj2 (proj1 (proj2
    (cascade_threshold Fixtures.test_app_ready MoreFixtures.three_failures
       eq_refl eq_refl Hall eq_refl)))).
  vm_compute. discriminate.
Defined.

Lemma counter_wraps_witness :
  readinessFailed MoreFixtures.app_at_max = 2 ^ 63 - 1 ∧
  (executeCheckers [("db", Fixtures.chk_down)] tt).2 = true ∧
  readinessFailed
    (handleReady tt [("db", Fixtures.chk_down)] MoreFixtures.app_at_max).1 = - 2 ^ 63.
Proof.
  split; [reflexivity|]. split; [reflexivity|].
  apply (counter_wraps MoreFixtures.app_at_max tt [("db", Fixtures.chk_down)]);
    reflexivity.
Defined.

Lemma New_fresh_witness :
  ∃ a0, New Fixtures.test_factory
          ([Fixtures.with_concurrency 1] ++ [Fixtures.with_concurrency 4]) = Some a0 ∧
        cc a0 = Some {| chan_cap := 4; chan_len := 4 |}.
Proof.
  destruct (New_fresh Fixtures.test_factory [Fixtures.with_concurrency 1]
              [Fixtures.with_concurrency 4]) as (a0 & HNew & Hopts & Hcc & _).
  exists a0. split; [exact HNew|].
  rewrite Hopts in Hcc. apply Hcc. reflexivity.
Defined.

Lemma factory_panic_witness :
  serveMux_match (dom (mux MoreFixtures.app_factory_panics))
    (URL_Path (Fixtures.req_path "/hello")) = Some "/hello" ∧
  mux MoreFixtures.app_factory_panics !! "/hello" = Some Fixtures.fn_panics ∧
  contextFactory MoreFixtures.app_factory_panics (Fixtures.req_path "/hello") =
    Panic "no context" ∧
  String.prefix DebugPathPrefix (URL_Path (Fixtures.req_path "/hello")) = false ∧
  (ServeHTTP MoreFixtures.app_factory_panics (Fixtures.req_path "/hello")).1 =
    [ARecv; AFactory (Fixtures.req_path "/hello"); ASend].
Proof.
  assert (Hm : serveMux_match (dom (mux MoreFixtures.app_factory_panics))
    (URL_Path (Fixtures.req_path "/hello")) = Some "/hello") by (by vm_compute).
  assert (Hf : mux MoreFixtures.app_factory_panics !! "/hello" = Some Fixtures.fn_panics)
    by (by vm_compute).
  split; [exact Hm|]. split; [exact Hf|]. split; [reflexivity|]. split; [reflexivity|].
  destruct (factory_panic MoreFixtures.app_factory_panics "/hello" Fixtures.fn_panics
              (Fixtures.req_path "/hello") "no context" Hm Hf
              ltac:(reflexivity) ltac:(reflexivity)) as (_ & _ & Hsteps).
  exact Hsteps.
Defined.

Lemma panic_propagates_witness :
  serveMux_match (dom (mux Fixtures.test_app_one_ready))
    (URL_Path (Fixtures.req_path "/hello")) = Some "/hello" ∧
  mux Fixtures.test_app_one_ready !! "/hello" = Some Fixtures.fn_panics ∧
  contextFactory Fixtures.test_app_one_ready (Fixtures.req_path "/hello") = Ok "/hello" ∧
  String.prefix DebugPathPrefix (URL_Path (Fixtures.req_path "/hello")) = false ∧
  (ServeHTTP Fixtures.test_app_one_ready (Fixtures.req_path "/hello")).2 = Panic "boom".
Proof.
  assert (Hm : serveMux_match (dom (mux Fixtures.test_app_one_ready))
    (URL_Path (Fixtures.req_path "/hello")) = Some "/hello") by (by vm_compute).
  assert (Hf : mux Fixtures.test_app_one_ready !! "/hello" = Some Fixtures.fn_panics)
    by (by vm_compute).
  split; [exact Hm|]. split; [exact Hf|]. split; [reflexivity|]. split; [reflexivity|].
  destruct (panic_propagates Fixtures.test_app_one_ready "/hello" Fixtures.fn_panics
              (Fixtures.req_path "/hello") "/hello" Hm Hf
              ltac:(reflexivity) ltac:(reflexivity))
    as (_ & _ & Hret & _).
  apply Hret. reflexivity.
Defined.

Lemma prefix_separates_witness :
  String.prefix DebugPathPrefix (URL_Path (Fixtures.req_path "/debug/alive")) = true ∧
  mux MoreFixtures.app_shadowed !! "/debug/alive" = Some Fixtures.fn_returns ∧
  Forall (λ act, is_inner act = false)
    (ServeHTTP MoreFixtures.app_shadowed (Fixtures.req_path "/debug/alive")).1.
Proof.
  split; [reflexivity|]. split; [by vm_compute|].
  apply (prefix_separates MoreFixtures.app_shadowed (Fixtures.req_path "/debug/alive")).
  reflexivity.
Defined.

Lemma no_deadlock_witness :
  New Fixtures.test_factory [Fixtures.with_concurrency 1] = Some Fixtures.test_app_one ∧
  setup Fixtures.test_app_one Fixtures.test_regs = Ok Fixtures.test_app_one_ready ∧
  0 < concurrency (opts Fixtures.test_app_one) ∧
  enabled (server_run (boot Fixtures.test_app_one_ready) Fixtures.test_schedule) 1 = false ∧
  ∃ tid', enabled (server_run (boot Fixtures.test_app_one_ready)
                              Fixtures.test_schedule) tid' = true.
Proof.
  split; [reflexivity|]. split; [reflexivity|]. split; [reflexivity|].
  split; [by vm_compute|].
  eapply (no_deadlock Fixtures.test_factory [Fixtures.with_concurrency 1]
            Fixtures.test_regs Fixtures.test_schedule Fixtures.test_app_one
            Fixtures.test_app_one_ready 1%nat);
    [reflexivity | reflexivity | reflexivity | by vm_compute | reflexivity].
Defined.

Lemma admitted_never_waits_witness :
  New Fixtures.test_factory [Fixtures.with_concurrency 1] = Some Fixtures.test_app_one ∧
  setup Fixtures.test_app_one Fixtures.test_regs = Ok Fixtures.test_app_one_ready ∧
  0 < concurrency (opts Fixtures.test_app_one) ∧
  enabled (server_run (boot Fixtures.test_app_one_ready) Fixtures.test_schedule) 0 = true.
Proof.
  split; [reflexivity|]. split; [reflexivity|]. split; [reflexivity|].
  eapply (admitted_never_waits Fixtures.test_factory [Fixtures.with_concurrency 1]
            Fixtures.test_regs Fixtures.test_schedule Fixtures.test_app_one
            Fixtures.test_app_one_ready 0%nat);
    [reflexivity | reflexivity | reflexivity | by vm_compute | reflexivity].
Defined.

Lemma permits_return_witness :
  New Fixtures.test_factory [Fixtures.with_concurrency 1] = Some Fixtures.test_app_one ∧
  setup Fixtures.test_app_one Fixtures.test_regs = Ok Fixtures.test_app_one_ready ∧
  0 < concurrency (opts Fixtures.test_app_one) ∧
  Forall (λ t, finished t = true)
    (threads (server_run (boot Fixtures.test_app_one_ready)
                         MoreFixtures.schedule_to_end)) ∧
  available (server_run (boot Fixtures.test_app_one_ready)
                        MoreFixtures.schedule_to_end) = 1.
Proof.
  assert (Hfin : Forall (λ t : thread unit string, finished t = true)
    (threads (server_run (boot Fixtures.test_app_one_ready)
                         MoreFixtures.schedule_to_end))).
  { vm_compute. repeat constructor. }
  split; [reflexivity|]. split; [reflexivity|]. split; [reflexivity|].
  split; [exact Hfin|].
  apply (permits_return Fixtures.test_factory [Fixtures.with_concurrency 1]
           Fixtures.test_regs MoreFixtures.schedule_to_end Fixtures.test_app_one
           Fixtures.test_app_one_ready
           ltac:(reflexivity) ltac:(reflexivity) ltac:(reflexivity)).
  exact Hfin.
Defined.

Lemma request_completes_witness :
  String.prefix DebugPathPrefix (URL_Path (Fixtures.req_path "/nowhere")) = false ∧
  server_run {| shared := Fixtures.test_app_one_ready; threads := [] |}
    (Accept (Fixtures.req_path "/nowhere") ::
     run_alone 0
       (length (ServeHTTP Fixtures.test_app_one_ready (Fixtures.req_path "/nowhere")).1)
       []) =
  {| shared := Fixtures.test_app_one_ready;
     threads := [{| todo := []; held := 0; written := None |}] |}.
Proof.
  split; [reflexivity|].
  apply (request_completes Fixtures.test_app_one_ready (Fixtures.req_path "/nowhere")
           [] []); [reflexivity | simpl; lia].
Defined.

End FurtherInstances.
